(** * tt_download_bot: session cache, link extraction, format selection, handlers

    A shallow embedding of [tt_download_bot.py].  Python values are kept as
    the code has them: a [str] is a [string], the [dict]s coming from the
    media provider are finite maps from keys to Python values, the module
    level [URL_CACHE] is a finite map from session ids to entries, and the
    handlers run in a state-and-exception monad over the cache, the download
    directory and the trace of calls made to the chat transport.  The
    readings of [time.time()] are exact rationals.  Where the code looks
    inside a text (patterns, [split], [in]) a character is a code point
    below 256; the fixed notices are carried as their UTF-8 bytes and only
    compared as wholes.  Calls of [logger] leave no trace. *)

From Stdlib Require Import Ascii QArith Lqa.
From stdpp Require Import gmap strings list fin_maps pretty.

#[local] Arguments String.append !s1 s2 : simpl nomatch.

(** ** Python values *)

Module Py.

(** The values found in a provider format dictionary. *)
Inductive pyval : Type :=
  | PNone
  | PStr (s : string)
  | PInt (n : Z).

(** [bool(v)]: [None], the empty string and zero are false. *)
Definition truthy (v : pyval) : bool :=
  match v with
  | PNone => false
  | PStr s => negb (String.eqb s "")
  | PInt n => negb (n =? 0)%Z
  end.

(** [a == b]. *)
Definition eqb (a b : pyval) : bool :=
  match a, b with
  | PNone, PNone => true
  | PStr s, PStr t => String.eqb s t
  | PInt n, PInt m => (n =? m)%Z
  | _, _ => false
  end.

(** [f"{v}"]. *)
Definition format (v : pyval) : string :=
  match v with
  | PNone => "None"
  | PStr s => s
  | PInt n => pretty n
  end.

(** [d.get(k)]: [None] when the key is missing. *)
Definition get (d : gmap string pyval) (k : string) : pyval :=
  default PNone (d !! k).

(** [range(start, stop, step)] for a positive step. *)
Definition range (start stop step : nat) : list nat :=
  (λ k, start + k * step) <$> seq 0 ((stop - start + step - 1) `div` step).

(** [l[i:j]] for [0 <= i <= j]. *)
Definition slice {A} (l : list A) (i j : nat) : list A :=
  take (j - i) (drop i l).

(** [s.partition(sep)] for a one-character separator: the text before the
    first separator, and the text after it when there is one. *)
Fixpoint cut (sep : Ascii.ascii) (s : string) : string * option string :=
  match s with
  | EmptyString => (EmptyString, None)
  | String c t =>
      if Ascii.eqb c sep then (EmptyString, Some t)
      else let '(piece, rest) := cut sep t in (String c piece, rest)
  end.

(** [s.split(sep, maxsplit)] for a one-character separator: at most
    [maxsplit] cuts, from the left; the last piece keeps the rest. *)
Fixpoint split (sep : Ascii.ascii) (maxsplit : nat) (s : string) : list string :=
  match maxsplit with
  | 0 => [s]
  | S n =>
      match cut sep s with
      | (piece, None) => [piece]
      | (piece, Some rest) => piece :: split sep n rest
      end
  end.

(** [s.count(sep)] for a one-character separator. *)
Fixpoint count (sep : Ascii.ascii) (s : string) : nat :=
  match s with
  | EmptyString => 0
  | String c t => (if Ascii.eqb c sep then 1 else 0) + count sep t
  end.

(** [sep.join(pieces)] for a one-character separator. *)
Fixpoint join (sep : Ascii.ascii) (pieces : list string) : string :=
  match pieces with
  | [] => EmptyString
  | [piece] => piece
  | piece :: pieces' => piece +:+ String sep (join sep pieces')
  end.

End Py.

(** ** Inline keyboards *)

Record InlineKeyboardButton := {
  text : string;
  callback_data : string;
}.

Record InlineKeyboardMarkup := {
  inline_keyboard : list (list InlineKeyboardButton);
}.

(** The buttons of a keyboard in display order, row after row. *)
Definition choices (kb : InlineKeyboardMarkup) : list InlineKeyboardButton :=
  concat (inline_keyboard kb).

(** ** Format selector *)

Module Selector.

(** The test of the loop of [build_quality_keyboard]:
    [f.get("vcodec") != "none" and f.get("ext") == "mp4" and f.get("height")]. *)
Definition offered (f : gmap string Py.pyval) : bool :=
  negb (Py.eqb (Py.get f "vcodec") (Py.PStr "none"))
  && Py.eqb (Py.get f "ext") (Py.PStr "mp4")
  && Py.truthy (Py.get f "height").

(** The button appended for a format that passes the test. *)
Definition quality_button (media_type uid : string) (f : gmap string Py.pyval)
  : InlineKeyboardButton :=
  let q := Py.get f "format_id" in
  let label := Py.format (Py.get f "height") +:+ "p" in
  {| text := label;
     callback_data :=
       "dl|" +:+ media_type +:+ "|" +:+ Py.format q +:+ "|" +:+ uid |}.

(** The button used when no format passed the test. *)
Definition fallback_button (media_type uid : string) : InlineKeyboardButton :=
  {| text := "Лучшее доступное";
     callback_data := "dl|" +:+ media_type +:+ "|best|" +:+ uid |}.

Definition build_quality_keyboard
    (formats : list (gmap string Py.pyval)) (media_type uid : string)
  : InlineKeyboardMarkup :=
  let quality_buttons :=
    fold_left
      (λ acc f,
         if offered f then acc ++ [quality_button media_type uid f] else acc)
      formats [] in
  let quality_buttons :=
    match quality_buttons with
    | [] => quality_buttons ++ [fallback_button media_type uid]
    | _ => quality_buttons
    end in
  let rows :=
    (λ i, Py.slice quality_buttons i (i + 3))
      <$> Py.range 0 (length quality_buttons) 3 in
  {| inline_keyboard := rows |}.

(** An mp4 encoding with a video codec, as the provider lists it. *)
Definition mp4 (format_id : string) (height : Z) : gmap string Py.pyval :=
  {[ "format_id" := Py.PStr format_id;
     "ext" := Py.PStr "mp4";
     "vcodec" := Py.PStr "avc1";
     "height" := Py.PInt height ]}.

Definition heights_360_720_720_1080 : list (gmap string Py.pyval) :=
  [mp4 "18" 360; mp4 "22" 720; mp4 "136" 720; mp4 "137" 1080].

End Selector.

(** ** Link extractor *)

Module Re.

(** The fragment of Python's [re] syntax used by [URL_PATTERNS]: literal
    text, concatenation, alternation [a|b], the greedy option [a?] and the
    greedy repetition [[cls]+] of a character class. *)
Inductive regex : Type :=
  | Lit (s : string)
  | Seq (a b : regex)
  | Alt (a b : regex)
  | Opt (a : regex)
  | Plus (cls : Ascii.ascii → bool).

(** [\s] on the code points below 256: tab, line feed, vertical tab, form
    feed, carriage return, the separators 28 to 31, space, next line (133)
    and no-break space (160). *)
Definition is_space (c : Ascii.ascii) : bool :=
  let n := Ascii.nat_of_ascii c in
  (9 <=? n) && (n <=? 13) || (28 <=? n) && (n <=? 32)
  || (n =? 133) || (n =? 160).

(** [[^\s]]. *)
Definition not_space (c : Ascii.ascii) : bool := negb (is_space c).

(** The text left after the literal [l] at the start of [s]. *)
Fixpoint strip (l s : string) : option string :=
  match l, s with
  | EmptyString, _ => Some s
  | String a l', String b s' => if Ascii.eqb a b then strip l' s' else None
  | String _ _, EmptyString => None
  end.

(** Greedy repetition: take the longest run of [cls] first and give
    characters back one at a time while the continuation fails. *)
Fixpoint star (cls : Ascii.ascii → bool) (s : string)
    (k : string → option string) : option string :=
  match s with
  | String c s' =>
      if cls c then
        match star cls s' k with
        | Some rest => Some rest
        | None => k s
        end
      else k s
  | EmptyString => k s
  end.

(** Backtracking match of [r] at the start of [s], then the continuation
    [k] on what is left; the result is the text after the whole match. *)
Fixpoint rmatch (r : regex) (s : string) (k : string → option string)
  : option string :=
  match r with
  | Lit l =>
      match strip l s with
      | Some s' => k s'
      | None => None
      end
  | Seq a b => rmatch a s (λ s', rmatch b s' k)
  | Alt a b =>
      match rmatch a s k with
      | Some rest => Some rest
      | None => rmatch b s k
      end
  | Opt a =>
      match rmatch a s k with
      | Some rest => Some rest
      | None => k s
      end
  | Plus cls =>
      match s with
      | String c s' => if cls c then star cls s' k else None
      | EmptyString => None
      end
  end.

(** [pattern.search(text)] followed by [m.group(0)]: the match at the
    leftmost position where one exists. *)
Fixpoint search (r : regex) (text : string) : option string :=
  match rmatch r text Some with
  | Some rest =>
      Some (String.substring 0 (String.length text - String.length rest) text)
  | None =>
      match text with
      | String _ text' => search r text'
      | EmptyString => None
      end
  end.

(** Every character of [s] is in the class. *)
Fixpoint all_in (cls : Ascii.ascii → bool) (s : string) : bool :=
  match s with
  | EmptyString => true
  | String c s' => cls c && all_in cls s'
  end.

(** The texts a pattern stands for. *)
Fixpoint lang (r : regex) (m : string) : Prop :=
  match r with
  | Lit l => m = l
  | Seq a b => ∃ x y, m = x +:+ y ∧ lang a x ∧ lang b y
  | Alt a b => lang a m ∨ lang b m
  | Opt a => lang a m ∨ m = EmptyString
  | Plus cls => m ≠ EmptyString ∧ all_in cls m = true
  end.

(** The pattern ends in the repetition [[cls]+]. *)
Fixpoint ends_with_plus (cls : Ascii.ascii → bool) (r : regex) : Prop :=
  match r with
  | Plus c => c = cls
  | Seq _ b => ends_with_plus cls b
  | _ => False
  end.

(** What is left of [s] after its longest run of [cls]. *)
Fixpoint skip (cls : Ascii.ascii → bool) (s : string) : string :=
  match s with
  | String c s' => if cls c then skip cls s' else s
  | EmptyString => s
  end.

End Re.

Module Link.

Import Re.

Local Infix "⋅" := Seq (at level 60, right associativity).

(** [https?://(?:www\.)?] *)
Definition scheme_www : regex → regex :=
  λ tail, Lit "http" ⋅ Opt (Lit "s") ⋅ Lit "://" ⋅ Opt (Lit "www.") ⋅ tail.

(** The dictionary [URL_PATTERNS], in insertion order. *)
Definition URL_PATTERNS : list (string * regex) :=
  [ ("tiktok",
     scheme_www (Alt (Lit "tiktok.com") (Lit "vm.tiktok.com")
                 ⋅ Lit "/" ⋅ Plus not_space));
    ("youtube",
     scheme_www (Alt (Lit "youtube.com") (Lit "youtu.be")
                 ⋅ Lit "/" ⋅ Plus not_space));
    ("instagram",
     scheme_www (Lit "instagram.com" ⋅ Lit "/" ⋅ Plus not_space));
    ("vk",
     scheme_www (Lit "vk.com" ⋅ Lit "/video" ⋅ Plus not_space));
    ("pinterest",
     scheme_www (Lit "pinterest." ⋅ Plus not_space)) ].

(** [key in url]. *)
Fixpoint contains (key s : string) : bool :=
  String.prefix key s
  || match s with
     | String _ s' => contains key s'
     | EmptyString => false
     end.

Definition upper (c : Ascii.ascii) : Ascii.ascii :=
  let n := Ascii.nat_of_ascii c in
  if (97 <=? n) && (n <=? 122) then Ascii.ascii_of_nat (n - 32) else c.

Definition lower (c : Ascii.ascii) : Ascii.ascii :=
  let n := Ascii.nat_of_ascii c in
  if (65 <=? n) && (n <=? 90) then Ascii.ascii_of_nat (n + 32) else c.

Fixpoint map_string (f : Ascii.ascii → Ascii.ascii) (s : string) : string :=
  match s with
  | EmptyString => EmptyString
  | String c s' => String (f c) (map_string f s')
  end.

(** [s.capitalize()] on ASCII text. *)
Definition capitalize (s : string) : string :=
  match s with
  | EmptyString => EmptyString
  | String c s' => String (upper c) (map_string lower s')
  end.

Fixpoint detect_platform_loop (keys : list string) (url : string) : string :=
  match keys with
  | key :: keys' =>
      if contains key url then capitalize key
      else detect_platform_loop keys' url
  | [] => "Unknown"
  end.

Definition detect_platform (url : string) : string :=
  detect_platform_loop (URL_PATTERNS.*1) url.

Fixpoint extract_url_loop (patterns : list regex) (text : string)
  : option string :=
  match patterns with
  | pattern :: patterns' =>
      match search pattern text with
      | Some m => Some m
      | None => extract_url_loop patterns' text
      end
  | [] => None
  end.

Definition extract_url (text : string) : option string :=
  extract_url_loop (URL_PATTERNS.*2) text.

End Link.

(** ** Session identifiers *)

Module Uuid.

Definition hex_digit (d : Z) : Ascii.ascii :=
  match String.get (Z.to_nat d) "0123456789abcdef" with
  | Some c => c
  | None => "0"%char
  end.

(** ['%0nx' % z] for [0 <= z < 16^n]: the [n] hexadecimal digits of [z],
    most significant first. *)
Fixpoint hex (n : nat) (z : Z) : string :=
  match n with
  | 0 => EmptyString
  | S n' => hex n' (z / 16) +:+ String (hex_digit (z mod 16)) EmptyString
  end.

(** [uuid.uuid4()] on the 128 random bits [r] read from the system: the
    variant and version fields are overwritten, the other 122 bits kept. *)
Definition uuid4 (r : Z) : Z :=
  let int := Z.land r (Z.lnot (Z.shiftl 0xc000 48)) in
  let int := Z.lor int (Z.shiftl 0x8000 48) in
  let int := Z.land int (Z.lnot (Z.shiftl 0xf000 64)) in
  Z.lor int (Z.shiftl 4 76).

(** [str(u)]: the 32 digits in groups of 8, 4, 4, 4 and 12. *)
Definition str (u : Z) : string :=
  let h := hex 32 u in
  String.substring 0 8 h +:+ "-" +:+ String.substring 8 4 h +:+ "-"
  +:+ String.substring 12 4 h +:+ "-" +:+ String.substring 16 4 h +:+ "-"
  +:+ String.substring 20 12 h.

(** [str(uuid.uuid4())[:8]], the session id of [build_type_keyboard]. *)
Definition session_id (r : Z) : string :=
  String.substring 0 8 (str (uuid4 r)).

End Uuid.

(** ** Session store and sweeper *)

Module Store.

(** A value of [URL_CACHE]: [{"url": url, "time": time.time()}]. *)
Record entry := {
  url : string;
  time : Q;
}.

Definition CACHE_TTL : Q := 15 * 60.

(** The pause of the sweeper between two iterations, in seconds. *)
Definition SWEEP_INTERVAL : Q := 300.

(** [now - v["time"] > CACHE_TTL]. *)
Definition stale (now : Q) (v : entry) : bool :=
  if Qlt_le_dec CACHE_TTL (now - time v) then true else false.

(** [del cache[k]]: [None] stands for the [KeyError] of a missing key. *)
Definition del (k : string) (cache : gmap string entry)
  : option (gmap string entry) :=
  match cache !! k with
  | Some _ => Some (delete k cache)
  | None => None
  end.

Fixpoint del_all (keys : list string) (cache : gmap string entry)
  : option (gmap string entry) :=
  match keys with
  | [] => Some cache
  | k :: keys' =>
      match del k cache with
      | Some cache' => del_all keys' cache'
      | None => None
      end
  end.

(** [[k for k, v in URL_CACHE.items() if now - v["time"] > CACHE_TTL]]. *)
Definition expired_keys (now : Q) (cache : gmap string entry) : list string :=
  (List.filter (λ kv, stale now kv.2) (map_to_list cache)).*1.

(** One iteration of the loop of [cleanup_cache] at clock reading [now]:
    first the list of expired keys, then their deletion one by one. *)
Definition sweep (now : Q) (cache : gmap string entry)
  : option (gmap string entry) :=
  let expired := expired_keys now cache in
  del_all expired cache.

(** The iterations of [cleanup_cache] at the successive clock readings
    [clock]. *)
Fixpoint cleanup_cache (clock : list Q) (cache : gmap string entry)
  : option (gmap string entry) :=
  match clock with
  | [] => Some cache
  | now :: clock' =>
      match sweep now cache with
      | Some cache' => cleanup_cache clock' cache'
      | None => None
      end
  end.

End Store.

(** ** Handlers *)

Module Bot.

Import Store.

(** The exceptions a handler can meet.  [CancelledError] derives from
    [BaseException] only, so [except Exception] lets it through. *)
Inductive exn : Type :=
  | ValueError
  | OSError
  | TelegramError
  | CancelledError.

Definition is_Exception (e : exn) : bool :=
  match e with
  | CancelledError => false
  | _ => true
  end.

(** What a handler does to the outside: the calls on [msg] and
    [call.message] (the constant [parse_mode] left out), and [os.remove]. *)
Inductive event : Type :=
  | Answer (text : string) (reply_markup : option InlineKeyboardMarkup)
  | EditText (text : string) (reply_markup : option InlineKeyboardMarkup)
  | AnswerAudio (path : string)
  | AnswerPhoto (path : string)
  | AnswerVideo (path : string)
  | DeleteMessage
  | Remove (path : string).

(** The state the handlers share: the module level cache, the files on
    disk, and the calls made so far, oldest first. *)
Record world := {
  URL_CACHE : gmap string entry;
  files : gset string;
  trace : list event;
}.

(** The options given to [yt_dlp.YoutubeDL] that vary between calls. *)
Record ydl_opts := {
  opt_format : string;
  opt_extract_audio : bool;
  opt_skip_download : bool;
  opt_writethumbnail : bool;
}.

(** The dictionary returned by [ydl.extract_info], as far as it is read. *)
Record info := {
  info_title : option string;
  info_formats : option (list (gmap string Py.pyval));
}.

Record VideoInfo := {
  vi_url : string;
  title : string;
  formats : list (gmap string Py.pyval);
}.

(** The collaborators.  [messenger] tells whether a call on the chat
    transport raises, given the calls made before it; [ydl_probe] is
    [extract_info(url, download=False)], [None] when it raises;
    [ydl_fetch] is [extract_info(url, download=True)] followed by
    [prepare_filename]: the files on disk afterwards and the file name,
    [None] when it raises; [remove_fails] tells for which existing paths
    [os.remove] raises. *)
Record env := {
  messenger : list event → event → option exn;
  ydl_probe : string → option info;
  ydl_fetch : ydl_opts → string → gset string → option string * gset string;
  remove_fails : string → bool;
}.

Inductive result (A : Type) : Type :=
  | Ok (a : A)
  | Raise (e : exn).
Arguments Ok {A} a.
Arguments Raise {A} e.

(** Computations of the handlers: state over [world], with exceptions. *)
Definition M (A : Type) : Type := world → result A * world.

#[global] Instance M_ret : MRet M := λ A a w, (Ok a, w).

#[global] Instance M_bind : MBind M :=
  λ A B f m w, match m w with
               | (Ok a, w') => f a w'
               | (Raise e, w') => (Raise e, w')
               end.

Definition raise {A} (e : exn) : M A := λ w, (Raise e, w).

(** [try: body except Exception as e: handler e]. *)
Definition try_except {A} (body : M A) (handler : exn → M A) : M A :=
  λ w, match body w with
       | (Raise e, w') =>
           if is_Exception e then handler e w' else (Raise e, w')
       | r => r
       end.

(** [try: body finally: final]: [final] runs whatever [body] did, and an
    exception of [final] replaces the outcome of [body]. *)
Definition try_finally {A} (body : M A) (final : M unit) : M A :=
  λ w, match body w with
       | (r, w') =>
           match final w' with
           | (Ok _, w'') => (r, w'')
           | (Raise e, w'') => (Raise e, w'')
           end
       end.

Definition log (ev : event) (w : world) : world :=
  {| URL_CACHE := URL_CACHE w; files := files w; trace := trace w ++ [ev] |}.

(** A call on the chat transport. *)
Definition send (E : env) (ev : event) : M unit :=
  λ w, match messenger E (trace w) ev with
       | None => (Ok tt, log ev w)
       | Some e => (Raise e, log ev w)
       end.

(** [os.path.exists(path)]. *)
Definition path_exists (path : string) : M bool :=
  λ w, (Ok (bool_decide (path ∈ files w)), w).

(** [os.remove(path)]. *)
Definition os_remove (E : env) (path : string) : M unit :=
  λ w, let w' := log (Remove path) w in
       if bool_decide (path ∈ files w) && negb (remove_fails E path) then
         (Ok tt, {| URL_CACHE := URL_CACHE w';
                    files := files w' ∖ {[path]};
                    trace := trace w' |})
       else (Raise OSError, w').

(** [URL_CACHE.get(uid)]. *)
Definition cache_get (uid : string) : M (option entry) :=
  λ w, (Ok (URL_CACHE w !! uid), w).

(** [URL_CACHE[uid] = v]. *)
Definition cache_set (uid : string) (v : entry) : M unit :=
  λ w, (Ok tt, {| URL_CACHE := <[uid := v]> (URL_CACHE w);
                  files := files w;
                  trace := trace w |}).

Definition NO_LINK : string := "❗ Не удалось найти ссылку.".
Definition SESSION_EXPIRED : string :=
  "⚠️ Сессия устарела. Отправь ссылку заново.".
Definition FETCHING_FORMATS : string := "⏳ Получаю список форматов...".
Definition NO_INFO : string := "🚫 Не удалось получить информацию о видео.".
Definition DOWNLOADING : string := "⬇️ Загружаю файл, подожди немного...".
Definition DOWNLOAD_FAILED : string := "🚫 Ошибка загрузки.".
Definition SEND_FAILED : string := "⚠️ Ошибка при отправке файла.".
Definition NEWLINE : string := String (Ascii.ascii_of_nat 10) EmptyString.

(** [get_video_info]: any exception of the provider gives [None]. *)
Definition get_video_info (E : env) (url : string) : M (option VideoInfo) :=
  mret (match ydl_probe E url with
       | Some i =>
           Some {| vi_url := url;
                   title := default "Без названия" (info_title i);
                   formats := default [] (info_formats i) |}
       | None => None
       end).

(** The text before the last [sep] of [s], when there is one. *)
Fixpoint rcut (sep : Ascii.ascii) (s : string) : option string :=
  match s with
  | EmptyString => None
  | String c t =>
      match rcut sep t with
      | Some p => Some (String c p)
      | None => if Ascii.eqb c sep then Some EmptyString else None
      end
  end.

(** [s.rsplit(".", 1)[0]]. *)
Definition rsplit_dot_head (s : string) : string :=
  default s (rcut "."%char s).

(** [download_media]: the options depend on the media type; the provider
    writes into the download directory; any exception gives [None]. *)
Definition download_media (E : env) (url : string) (fmt_id : option string)
    (media_type : string) : M (option string) :=
  let ydl_opts :=
    {| opt_format :=
         match fmt_id with
         | Some f => if String.eqb f "" then "best" else f
         | None => "best"
         end;
       opt_extract_audio := false;
       opt_skip_download := false;
       opt_writethumbnail := false |} in
  let ydl_opts :=
    if String.eqb media_type "audio" then
      {| opt_format := "bestaudio/best";
         opt_extract_audio := true;
         opt_skip_download := opt_skip_download ydl_opts;
         opt_writethumbnail := opt_writethumbnail ydl_opts |}
    else if String.eqb media_type "thumbnail" then
      {| opt_format := opt_format ydl_opts;
         opt_extract_audio := opt_extract_audio ydl_opts;
         opt_skip_download := true;
         opt_writethumbnail := true |}
    else ydl_opts in
  λ w,
    let '(name, files') := ydl_fetch E ydl_opts url (files w) in
    let w' := {| URL_CACHE := URL_CACHE w; files := files';
                 trace := trace w |} in
    match name with
    | Some name =>
        if String.eqb media_type "thumbnail"
        then (Ok (Some (rsplit_dot_head name +:+ ".jpg")), w')
        else (Ok (Some name), w')
    | None => (Ok None, w')
    end.

(** [build_type_keyboard], with the random bits [r] behind [uuid.uuid4()]
    and the reading [now] of [time.time()]. *)
Definition build_type_keyboard (r : Z) (now : Q) (url : string)
  : M InlineKeyboardMarkup :=
  let uid := Uuid.session_id r in
  cache_set uid {| url := url; time := now |};;
  mret {| inline_keyboard :=
           [[ {| text := "🎞 Видео";
                 callback_data := "type|video|" +:+ uid |};
              {| text := "🎧 Аудио";
                 callback_data := "type|audio|" +:+ uid |};
              {| text := "🖼 Превью";
                 callback_data := "type|thumbnail|" +:+ uid |} ]] |}.

(** [handle_link] on the text of the message ([None] when it has none). *)
Definition handle_link (E : env) (r : Z) (now : Q) (msg_text : option string)
  : M unit :=
  match Link.extract_url (default "" msg_text) with
  | None => send E (Answer NO_LINK None)
  | Some url =>
      if String.eqb url "" then send E (Answer NO_LINK None)
      else
        let platform := Link.detect_platform url in
        kb ← build_type_keyboard r now url;
        send E (Answer ("📦 Найдено: <b>" +:+ platform +:+ "</b>" +:+ NEWLINE
                        +:+ "Выбери тип загрузки:") (Some kb))
  end.

(** [cb_select_type] from line 207 on, once the entry was found. *)
Definition select_type_found (E : env) (url media_type uid : string) : M unit :=
  send E (EditText FETCHING_FORMATS None);;
  info ← get_video_info E url;
  match info with
  | None => send E (EditText NO_INFO None)
  | Some info =>
      let kb := Selector.build_quality_keyboard (formats info) media_type uid in
      send E (EditText ("🎥 <b>" +:+ title info +:+ "</b>" +:+ NEWLINE
                        +:+ "Выбери качество:") (Some kb))
  end.

Definition cb_select_type (E : env) (data : string) : M unit :=
  match Py.split "|"%char 2 data with
  | [_; media_type; uid] =>
      entry ← cache_get uid;
      match entry with
      | None => send E (EditText SESSION_EXPIRED None)
      | Some entry => select_type_found E (url entry) media_type uid
      end
  | _ => raise ValueError
  end.

(** The upload of [cb_download], by media type. *)
Definition deliver (E : env) (media_type path : string) : M unit :=
  (if String.eqb media_type "audio" then send E (AnswerAudio path)
   else if String.eqb media_type "thumbnail" then send E (AnswerPhoto path)
   else send E (AnswerVideo path));;
  send E DeleteMessage.

(** [cb_download] from line 229 on, once the entry was found. *)
Definition download_found (E : env) (url media_type fmt_id : string) : M unit :=
  send E (EditText DOWNLOADING None);;
  path ← download_media E url (Some fmt_id) media_type;
  match path with
  | None => send E (EditText DOWNLOAD_FAILED None)
  | Some path =>
      present ← path_exists path;
      if String.eqb path "" || negb present then
        send E (EditText DOWNLOAD_FAILED None)
      else
        try_finally
          (try_except
             (deliver E media_type path)
             (λ _, send E (EditText SEND_FAILED None)))
          (try_except (os_remove E path) (λ _, mret tt))
  end.

Definition cb_download (E : env) (data : string) : M unit :=
  match Py.split "|"%char 3 data with
  | [_; media_type; fmt_id; uid] =>
      entry ← cache_get uid;
      match entry with
      | None => send E (EditText SESSION_EXPIRED None)
      | Some entry => download_found E (url entry) media_type fmt_id
      end
  | _ => raise ValueError
  end.

(** A run in which every collaborator succeeds: the transport accepts
    every call, the provider lists two mp4 encodings and writes the file
    it names. *)
Definition all_fine : env :=
  {| messenger := λ _ _, None;
     ydl_probe := λ _,
       Some {| info_title := Some "clip";
               info_formats :=
                 Some [Selector.mp4 "18" 480; Selector.mp4 "22" 720] |};
     ydl_fetch := λ _ _ fs,
       (Some "downloads/clip.mp4", fs ∪ {["downloads/clip.mp4"]});
     remove_fails := λ _, false |}.

Definition empty_world : world :=
  {| URL_CACHE := ∅; files := ∅; trace := [] |}.

(** A run in which the upload is refused by the chat transport while every
    other call goes through. *)
Definition upload_refused : env :=
  {| messenger := λ _ ev,
       match ev with
       | AnswerVideo _ => Some TelegramError
       | _ => None
       end;
     ydl_probe := ydl_probe all_fine;
     ydl_fetch := ydl_fetch all_fine;
     remove_fails := λ _, false |}.

(** A world holding one session, created at clock reading 0. *)
Definition one_session : world :=
  {| URL_CACHE := {[ "12345678" :=
                       {| Store.url := "https://vm.tiktok.com/ABC123";
                          Store.time := 0 |} ]};
     files := ∅;
     trace := [] |}.

(** A computation leaves a component of the world as it found it. *)
Definition preserves {X A} (proj : world → X) (m : M A) : Prop :=
  ∀ w, proj (m w).2 = proj w.

Definition START_TEXT : string :=
  "🎬 Я загружаю видео, аудио и превью из TikTok, YouTube Shorts, Instagram Reels, VK Видео и Pinterest."
  +:+ NEWLINE +:+ "Отправь ссылку — выбери формат и качество.".

(** [cmd_start]. *)
Definition cmd_start (E : env) : M unit :=
  send E (Answer START_TEXT None).

(** The two registrations of [main] on [dp.callback_query]: a button press
    goes to the first handler whose filter accepts its data, and to none
    when both filters refuse it; the result tells whether it was handled. *)
Definition on_callback_query (E : env) (data : string) : M bool :=
  if String.prefix "type|" data then cb_select_type E data;; mret true
  else if String.prefix "dl|" data then cb_download E data;; mret true
  else mret false.

(** The upload call of [cb_download] for a media type. *)
Definition upload_call (media_type path : string) : event :=
  if String.eqb media_type "audio" then AnswerAudio path
  else if String.eqb media_type "thumbnail" then AnswerPhoto path
  else AnswerVideo path.

(** A run in which the chat transport refuses every call. *)
Definition transport_down : env :=
  {| messenger := λ _ _, Some TelegramError;
     ydl_probe := ydl_probe all_fine;
     ydl_fetch := ydl_fetch all_fine;
     remove_fails := λ _, false |}.

(** A run in which the prompt cannot be deleted. *)
Definition prompt_stuck : env :=
  {| messenger := λ _ ev,
       match ev with
       | DeleteMessage => Some TelegramError
       | _ => None
       end;
     ydl_probe := ydl_probe all_fine;
     ydl_fetch := ydl_fetch all_fine;
     remove_fails := λ _, false |}.

(** A run in which the task is cancelled during the upload. *)
Definition upload_cancelled : env :=
  {| messenger := λ _ ev,
       match ev with
       | AnswerVideo _ => Some CancelledError
       | _ => None
       end;
     ydl_probe := ydl_probe all_fine;
     ydl_fetch := ydl_fetch all_fine;
     remove_fails := λ _, false |}.

(** A run in which the provider raises on every request. *)
Definition provider_down : env :=
  {| messenger := λ _ _, None;
     ydl_probe := λ _, None;
     ydl_fetch := λ _ _ fs, (None, fs);
     remove_fails := λ _, false |}.

(** The calls that edit the prompt. *)
Definition is_edit (ev : event) : bool :=
  match ev with
  | EditText _ _ => true
  | _ => false
  end.

(** The outcome of a call on the chat transport. *)
Definition verdict (E : env) (w : world) (ev : event) : result unit :=
  match messenger E (trace w) ev with
  | None => Ok tt
  | Some e => Raise e
  end.

End Bot.

(** * Properties *)

Import Bot.

(** ** Format selector *)

Section SelectorFacts.

Import Selector.

Variables media_type uid : string.

(** The loop of [build_quality_keyboard] appends, in order, one button per
    format that passes the test. *)
Lemma quality_loop formats acc :
  fold_left
    (λ acc f,
       if offered f then acc ++ [quality_button media_type uid f] else acc)
    formats acc
  = acc ++ (quality_button media_type uid <$> List.filter offered formats).
Proof.
  revert acc. induction formats as [|f formats IH]; intros acc; simpl.
  - by rewrite app_nil_r.
  - rewrite IH. destruct (offered f); simpl; [|done].
    by rewrite <- app_assoc.
Qed.

(** Cutting a list into slices of three and gluing them back. *)
Lemma concat_slices {A} (l : list A) n :
  concat ((λ i, Py.slice l i (i + 3)) <$> ((λ k, 0 + k * 3) <$> seq 0 n))
  = take (3 * n) l.
Proof.
  induction n as [|n IH].
  - by rewrite Nat.mul_0_r, take_0.
  - rewrite seq_S, !fmap_app, concat_app, IH. simpl.
    rewrite app_nil_r. unfold Py.slice.
    replace (n * 3 + 3 - n * 3) with 3 by lia.
    replace (n * 3) with (3 * n) by lia.
    rewrite take_take_drop. f_equal. lia.
Qed.

Lemma concat_rows {A} (l : list A) :
  concat ((λ i, Py.slice l i (i + 3)) <$> Py.range 0 (length l) 3) = l.
Proof.
  unfold Py.range. rewrite concat_slices. apply take_ge.
  pose proof (Nat.div_mod_eq (length l - 0 + 3 - 1) 3) as Hd.
  pose proof (Nat.mod_upper_bound (length l - 0 + 3 - 1) 3) as Hm. lia.
Qed.

(** The buttons of the keyboard, whatever the media type. *)
Lemma choices_build_quality_keyboard formats :
  choices (build_quality_keyboard formats media_type uid)
  = match List.filter offered formats with
    | [] => [fallback_button media_type uid]
    | fs => quality_button media_type uid <$> fs
    end.
Proof.
  unfold choices, build_quality_keyboard. simpl.
  rewrite concat_rows, quality_loop. simpl.
  by destruct (List.filter offered formats).
Qed.

End SelectorFacts.

(** The label of a quality button ends in the letter p, so it is never the
    label of the fallback button. *)
Lemma quality_button_not_fallback media_type uid f :
  Selector.quality_button media_type uid f
  ≠ Selector.fallback_button media_type uid.
Proof.
  intros H. apply (f_equal text) in H. simpl in H.
  assert (Hlast : ∀ s t,
    s +:+ "p" = t →
    String.get (String.length t - 1) t = Some "p"%char).
  { clear. induction s as [|c s IH]; intros t <-; [done|].
    simpl. rewrite Nat.sub_0_r.
    specialize (IH _ eq_refl).
    destruct (s +:+ "p") as [|c' s'] eqn:Hs; [by destruct s|].
    simpl in IH. by rewrite Nat.sub_0_r in IH. }
  apply Hlast in H. vm_compute in H. discriminate.
Qed.

(** C1 (statement of the claim at its own example): with encodings of
    heights 360, 720, 720 and 1080, all mp4 with a video codec, the
    selector does not produce the three choices 360p, 720p, 1080p: both
    encodings of height 720 get a button. *)
Lemma c1_duplicate_heights_kept :
  text <$> choices (Selector.build_quality_keyboard
                      Selector.heights_360_720_720_1080 "video" "ab12cd34")
  = ["360p"; "720p"; "720p"; "1080p"]
  ∧ text <$> choices (Selector.build_quality_keyboard
                        Selector.heights_360_720_720_1080 "video" "ab12cd34")
    ≠ ["360p"; "720p"; "1080p"]
  ∧ ¬ NoDup (text <$> choices (Selector.build_quality_keyboard
                                 Selector.heights_360_720_720_1080
                                 "video" "ab12cd34")).
Proof.
  assert (Hrun : text <$> choices (Selector.build_quality_keyboard
                      Selector.heights_360_720_720_1080 "video" "ab12cd34")
                 = ["360p"; "720p"; "720p"; "1080p"]) by (vm_compute; done).
  rewrite Hrun. split; [done|]. split; [discriminate|].
  intros Hnd. apply NoDup_cons in Hnd as [_ Hnd].
  apply NoDup_cons in Hnd as [Hin _]. apply Hin. left.
Qed.

(** C1 (as amended): for every encoding list and every media type, the
    selector produces one choice per encoding that has a video codec, the
    mp4 container and a height, in source order and without removing
    duplicates by height, or the single fallback choice when no encoding
    passes; heights 360, 720, 720, 1080 give the four choices 360p, 720p,
    720p, 1080p in that order. *)
Theorem quality_choices_one_per_offered_format
    (formats : list (gmap string Py.pyval)) (media_type uid : string) :
  choices (Selector.build_quality_keyboard formats media_type uid)
  = match List.filter Selector.offered formats with
    | [] => [Selector.fallback_button media_type uid]
    | fs => Selector.quality_button media_type uid <$> fs
    end
  ∧ text <$> choices (Selector.build_quality_keyboard
                        Selector.heights_360_720_720_1080 "video" uid)
    = ["360p"; "720p"; "720p"; "1080p"].
Proof.
  split; [apply choices_build_quality_keyboard|].
  rewrite choices_build_quality_keyboard.
  by vm_compute.
Qed.

(** C2 (statement of the claim at a concrete input): for the media type
    audio and two mp4 video encodings the keyboard holds two choices, none
    of them the fallback button. *)
Lemma c2_audio_keyboard_lists_video_formats :
  let kb := Selector.build_quality_keyboard
              [Selector.mp4 "18" 480; Selector.mp4 "22" 720]
              "audio" "ab12cd34" in
  choices kb
  = [ {| text := "480p"; callback_data := "dl|audio|18|ab12cd34" |};
      {| text := "720p"; callback_data := "dl|audio|22|ab12cd34" |} ]
  ∧ choices kb ≠ [Selector.fallback_button "audio" "ab12cd34"].
Proof.
  assert (Hrun : choices (Selector.build_quality_keyboard
              [Selector.mp4 "18" 480; Selector.mp4 "22" 720]
              "audio" "ab12cd34")
    = [ {| text := "480p"; callback_data := "dl|audio|18|ab12cd34" |};
        {| text := "720p"; callback_data := "dl|audio|22|ab12cd34" |} ])
    by (vm_compute; done).
  simpl. rewrite Hrun. split; [done|discriminate].
Qed.

(** C2 (as amended): the media type does not enter the selection.  For
    every media type, audio and thumbnail included, the keyboard shows the
    same labels as for video, one per encoding that passes the test, and it
    is the single fallback button exactly when no encoding passes. *)
Theorem quality_keyboard_ignores_media_type
    (formats : list (gmap string Py.pyval)) (media_type uid : string) :
  text <$> choices (Selector.build_quality_keyboard formats media_type uid)
  = text <$> choices (Selector.build_quality_keyboard formats "video" uid)
  ∧ length (choices (Selector.build_quality_keyboard formats media_type uid))
    = Nat.max 1 (length (List.filter Selector.offered formats))
  ∧ (choices (Selector.build_quality_keyboard formats media_type uid)
     = [Selector.fallback_button media_type uid]
     ↔ List.filter Selector.offered formats = []).
Proof.
  rewrite !choices_build_quality_keyboard.
  destruct (List.filter Selector.offered formats) as [|f fs] eqn:Hf.
  - by repeat split.
  - split; [|split].
    + rewrite <- !list_fmap_compose. by apply list_fmap_ext.
    + rewrite length_fmap. simpl. lia.
    + split; [|done]. rewrite fmap_cons. intros H.
      destruct (quality_button_not_fallback media_type uid f). congruence.
Qed.

(** ** Strings *)

Lemma append_assoc (a b c : string) : (a +:+ b) +:+ c = a +:+ (b +:+ c).
Proof. induction a as [|x a IH]; simpl; [done|]. f_equal. apply IH. Qed.

Lemma length_append (a b : string) :
  String.length (a +:+ b) = String.length a + String.length b.
Proof. induction a as [|x a IH]; simpl; [done|]. f_equal. apply IH. Qed.

(** [(a + b)[:len(a)] = a]. *)
Lemma substring_append (a b : string) :
  String.substring 0 (String.length a) (a +:+ b) = a.
Proof.
  induction a as [|x a IH]; simpl.
  - by destruct b.
  - f_equal. apply IH.
Qed.

(** ** Session identifiers *)

Section UuidFacts.

Import Uuid.

Local Open Scope Z_scope.

Lemma length_hex n z : String.length (hex n z) = n.
Proof.
  revert z. induction n as [|n IH]; intros z; simpl; [done|].
  rewrite length_append, IH. simpl. lia.
Qed.

(** The leading digits of a number are the digits of its quotient. *)
Lemma hex_split (n m : nat) z :
  hex (n + m) z = hex n (z / 16 ^ Z.of_nat m) +:+ hex m z.
Proof.
  revert z. induction m as [|m IH]; intros z.
  - rewrite Nat.add_0_r. simpl. rewrite Z.div_1_r.
    induction (hex n z) as [|c s IHs]; simpl; [done|]. by rewrite <- IHs.
  - replace (n + S m)%nat with (S (n + m)) by lia. simpl hex.
    rewrite IH, append_assoc. do 2 f_equal.
    rewrite Z.div_div by lia. f_equal.
    rewrite Nat2Z.inj_succ, Z.pow_succ_r by lia. done.
Qed.

Lemma hex_digit_inj a b :
  0 ≤ a < 16 → 0 ≤ b < 16 → hex_digit a = hex_digit b → a = b.
Proof.
  intros Ha Hb.
  assert (Hcases : ∀ x, 0 ≤ x < 16 →
    x = 0 ∨ x = 1 ∨ x = 2 ∨ x = 3 ∨ x = 4 ∨ x = 5 ∨ x = 6 ∨ x = 7 ∨
    x = 8 ∨ x = 9 ∨ x = 10 ∨ x = 11 ∨ x = 12 ∨ x = 13 ∨ x = 14 ∨ x = 15)
    by lia.
  destruct (Hcases a Ha) as [->|[->|[->|[->|[->|[->|[->|[->|[->|[->|[->|
    [->|[->|[->|[->| ->]]]]]]]]]]]]]]];
  destruct (Hcases b Hb) as [->|[->|[->|[->|[->|[->|[->|[->|[->|[->|[->|
    [->|[->|[->|[->| ->]]]]]]]]]]]]]]];
  vm_compute; congruence.
Qed.

(** Splitting off the last character of two strings of equal length. *)
Lemma append_last_inj (s t : string) (c d : Ascii.ascii) :
  s +:+ String c EmptyString = t +:+ String d EmptyString → s = t ∧ c = d.
Proof.
  revert t. induction s as [|x s IH]; intros [|y t] H; simpl in H.
  - by injection H as ->.
  - injection H as -> H. by destruct t.
  - injection H as -> H. by destruct s.
  - injection H as -> H. apply IH in H as [-> ->]. done.
Qed.

(** Numbers below [16^n] with the same [n] digits are equal. *)
Lemma hex_inj (n : nat) a b :
  0 ≤ a < 16 ^ Z.of_nat n → 0 ≤ b < 16 ^ Z.of_nat n →
  hex n a = hex n b → a = b.
Proof.
  revert a b. induction n as [|n IH]; intros a b Ha Hb H.
  - simpl in Ha, Hb. lia.
  - rewrite Nat2Z.inj_succ, Z.pow_succ_r in Ha, Hb by lia.
    simpl in H. apply append_last_inj in H as [Hq Hr].
    apply hex_digit_inj in Hr; [|by apply Z.mod_pos_bound..].
    apply IH in Hq; [|split; [apply Z.div_pos; lia
                            |apply Z.div_lt_upper_bound; lia]..].
    rewrite (Z.div_mod a 16), (Z.div_mod b 16) by lia. congruence.
Qed.

(** Setting the version and variant fields leaves the 32 leading bits. *)
Lemma uuid4_leading_bits r : uuid4 r / 2 ^ 96 = r / 2 ^ 96.
Proof.
  rewrite <- !Z.shiftr_div_pow2 by lia. unfold uuid4.
  rewrite !Z.shiftr_lor, !Z.shiftr_land, !Z.shiftr_lor, !Z.shiftr_land.
  change (Z.shiftr (Z.lnot (Z.shiftl 0xc000 48)) 96) with (-1).
  change (Z.shiftr (Z.lnot (Z.shiftl 0xf000 64)) 96) with (-1).
  change (Z.shiftr (Z.shiftl 0x8000 48) 96) with 0.
  change (Z.shiftr (Z.shiftl 4 76) 96) with 0.
  by rewrite !Z.land_m1_r, !Z.lor_0_r.
Qed.

(** The session id is the eight hexadecimal digits of the 32 leading
    random bits. *)
Lemma session_id_leading_bits r : session_id r = hex 8 (r / 2 ^ 96).
Proof.
  unfold session_id, str.
  pose proof (hex_split 8 24 (uuid4 r)) as Hs. simpl Nat.add in Hs.
  rewrite Hs.
  pose proof (substring_append (hex 8 (uuid4 r / 16 ^ Z.of_nat 24))) as Hp.
  rewrite length_hex in Hp. rewrite !Hp.
  change (16 ^ Z.of_nat 24) with (2 ^ 96).
  by rewrite uuid4_leading_bits.
Qed.

End UuidFacts.

(** C4 (statement of the claim at a concrete input): two sequential calls
    of [build_type_keyboard] whose random UUIDs differ return keyboards
    with the same session id, and the second session replaces the first in
    the cache. *)
Lemma c4_two_puts_same_session_id :
  let r1 := 0x12345678deadbeefcafef00d01234567%Z in
  let r2 := 0x12345678000000000000000000000000%Z in
  let run1 := build_type_keyboard r1 1000 "https://vm.tiktok.com/ABC123"
                empty_world in
  let run2 := build_type_keyboard r2 1001 "https://youtu.be/dQw4w9WgXcQ"
                run1.2 in
  Uuid.str (Uuid.uuid4 r1) = "12345678-dead-4eef-8afe-f00d01234567"
  ∧ Uuid.str (Uuid.uuid4 r2) = "12345678-0000-4000-8000-000000000000"
  ∧ Uuid.session_id r1 = "12345678"
  ∧ Uuid.session_id r2 = "12345678"
  ∧ ¬ (Uuid.session_id r1 ≠ Uuid.session_id r2)
  ∧ run1.1 = run2.1
  ∧ map_to_list (URL_CACHE run2.2)
    = [("12345678",
        {| Store.url := "https://youtu.be/dQw4w9WgXcQ";
           Store.time := 1001 |})].
Proof.
  repeat split; try (vm_compute; reflexivity).
  intros H. apply H. vm_compute. reflexivity.
Qed.

(** C4 (as amended): the session id is the eight hexadecimal digits of the
    32 leading bits of the random UUID, an identifier space of [2^32]; two
    sequential calls of [build_type_keyboard] get distinct ids exactly
    when these leading bits differ, and each call stores its session under
    its id, replacing a session already stored there. *)
Theorem session_ids_distinct_iff_leading_bits
    (r1 r2 : Z) (now1 now2 : Q) (url1 url2 : string) (w : world) :
  (0 ≤ r1 < 2 ^ 128)%Z → (0 ≤ r2 < 2 ^ 128)%Z →
  let run1 := build_type_keyboard r1 now1 url1 w in
  let run2 := build_type_keyboard r2 now2 url2 run1.2 in
  (Uuid.session_id r1 ≠ Uuid.session_id r2
   ↔ (r1 / 2 ^ 96)%Z ≠ (r2 / 2 ^ 96)%Z)
  ∧ Uuid.session_id r1 = Uuid.hex 8 (r1 / 2 ^ 96)
  ∧ (0 ≤ r1 / 2 ^ 96 < 2 ^ 32)%Z
  ∧ URL_CACHE run2.2
    = <[Uuid.session_id r2 := {| Store.url := url2; Store.time := now2 |}]>
        (<[Uuid.session_id r1 :=
             {| Store.url := url1; Store.time := now1 |}]> (URL_CACHE w)).
Proof.
  intros Hr1 Hr2.
  assert (Hb : ∀ r, (0 ≤ r < 2 ^ 128 → 0 ≤ r / 2 ^ 96 < 2 ^ 32)%Z).
  { intros r Hr. split; [apply Z.div_pos; lia|].
    apply Z.div_lt_upper_bound; lia. }
  split; [|split; [|split]].
  - rewrite !session_id_leading_bits. split.
    + intros Hne Heq. apply Hne. by rewrite Heq.
    + intros Hne Heq. apply Hne.
      apply (hex_inj 8) in Heq; [done|by apply Hb..].
  - apply session_id_leading_bits.
  - by apply Hb.
  - reflexivity.
Qed.

(** Two UUIDs that differ in their eighth digit. *)
Lemma session_ids_distinct_iff_leading_bits_witness :
  Uuid.session_id 0x12345678deadbeefcafef00d01234567
  ≠ Uuid.session_id 0x12345679deadbeefcafef00d01234567.
Proof.
  apply (session_ids_distinct_iff_leading_bits
           0x12345678deadbeefcafef00d01234567
           0x12345679deadbeefcafef00d01234567
           1000 1001 "https://vm.tiktok.com/ABC123"
           "https://youtu.be/dQw4w9WgXcQ" empty_world); [lia|lia|].
  vm_compute. discriminate.
Defined.

(** ** Session store and sweeper *)

Section StoreFacts.

Import Store.

Implicit Types (cache : gmap string entry) (keys : list string).

(** Deleting keys that are all present and pairwise distinct never meets
    a missing key and removes exactly these keys. *)
Lemma del_all_present keys cache :
  NoDup keys →
  (∀ k, k ∈ keys → is_Some (cache !! k)) →
  ∃ cache',
    del_all keys cache = Some cache'
    ∧ ∀ k, cache' !! k = if decide (k ∈ keys) then None else cache !! k.
Proof.
  revert cache. induction keys as [|k0 keys IH]; intros cache Hnd Hin.
  - exists cache. split; [done|]. intros k.
    destruct (decide (k ∈ [])) as [Hk|_]; [|done]. by apply elem_of_nil in Hk.
  - apply NoDup_cons in Hnd as [Hk0 Hnd].
    destruct (Hin k0) as [v Hv]; [left|].
    destruct (IH (delete k0 cache) Hnd) as (cache' & Hrun & Hget).
    { intros k Hk. rewrite lookup_delete_ne; [apply Hin; by right|].
      intros ->. done. }
    exists cache'. split.
    { simpl. unfold del. by rewrite Hv. }
    intros k. rewrite Hget.
    destruct (decide (k = k0)) as [->|Hne].
    + rewrite lookup_delete_eq.
      rewrite (decide_True (P := k0 ∈ k0 :: keys)) by left.
      by destruct (decide (k0 ∈ keys)).
    + rewrite lookup_delete_ne by done.
      destruct (decide (k ∈ keys)) as [Hk|Hk].
      * by rewrite decide_True by (by right).
      * rewrite decide_False; [done|].
        intros [?|?]%elem_of_cons; done.
Qed.

Lemma elem_of_expired_keys now cache k :
  k ∈ expired_keys now cache
  ↔ ∃ v, cache !! k = Some v ∧ stale now v = true.
Proof.
  unfold expired_keys. rewrite list_elem_of_fmap. split.
  - intros ([k' v] & -> & Hin). apply list_elem_of_In, filter_In in Hin.
    destruct Hin as [Hin Hst]. apply list_elem_of_In in Hin.
    apply elem_of_map_to_list in Hin. by exists v.
  - intros (v & Hv & Hst). exists (k, v). split; [done|].
    apply list_elem_of_In, filter_In. split; [|done].
    apply list_elem_of_In. by apply elem_of_map_to_list.
Qed.

Lemma NoDup_expired_keys now cache : NoDup (expired_keys now cache).
Proof.
  unfold expired_keys.
  apply (sublist_NoDup _ (map_to_list cache).*1);
    [apply NoDup_fst_map_to_list|].
  apply fmap_sublist.
  induction (map_to_list cache) as [|kv l IH]; simpl; [done|].
  destruct (stale now kv.2); by constructor.
Qed.

(** One iteration of the sweeper always completes, and afterwards a key
    is bound exactly when it was bound to an entry that is not stale. *)
Lemma sweep_spec now cache :
  ∃ cache',
    sweep now cache = Some cache'
    ∧ ∀ k, cache' !! k
           = match cache !! k with
             | Some v => if stale now v then None else Some v
             | None => None
             end.
Proof.
  destruct (del_all_present (expired_keys now cache) cache)
    as (cache' & Hrun & Hget).
  - apply NoDup_expired_keys.
  - intros k (v & Hv & _)%elem_of_expired_keys. by exists v.
  - exists cache'. split; [done|]. intros k. rewrite Hget.
    destruct (decide (k ∈ expired_keys now cache)) as [Hk|Hk].
    + apply elem_of_expired_keys in Hk as (v & -> & ->). done.
    + destruct (cache !! k) as [v|] eqn:Hv; [|done].
      destruct (stale now v) eqn:Hst; [|done].
      destruct Hk. apply elem_of_expired_keys. by exists v.
Qed.

Lemma stale_true now v : stale now v = true ↔ (CACHE_TTL < now - time v)%Q.
Proof.
  unfold stale. destruct (Qlt_le_dec CACHE_TTL (now - time v)) as [H|H].
  - done.
  - split; [done|]. intros H'. by apply Qle_not_lt in H.
Qed.

End StoreFacts.

(** C8: for every store state and clock reading, one iteration of the
    sweeper completes and deletes every entry whose age [now - time]
    exceeds the TTL, so that a lookup of such an entry finds nothing
    afterwards; sweeping again at the same reading changes nothing. *)
Theorem sweep_deletes_stale_and_is_idempotent
    (now : Q) (cache : gmap string Store.entry) :
  ∃ cache',
    Store.sweep now cache = Some cache'
    ∧ (∀ uid v,
         cache !! uid = Some v →
         (Store.CACHE_TTL < now - Store.time v)%Q →
         cache' !! uid = None)
    ∧ Store.sweep now cache' = Some cache'
    ∧ Store.cleanup_cache [now; now] cache = Store.cleanup_cache [now] cache.
Proof.
  destruct (sweep_spec now cache) as (cache' & Hrun & Hget).
  destruct (sweep_spec now cache') as (cache'' & Hrun' & Hget').
  assert (cache'' = cache') as ->.
  { apply map_eq. intros k. rewrite Hget', Hget.
    destruct (cache !! k) as [v|]; [|done].
    destruct (Store.stale now v) eqn:Hst; [done|]. by rewrite Hst. }
  exists cache'. split; [done|]. split; [|split; [done|]].
  - intros uid v Hv Hage. rewrite Hget, Hv.
    apply stale_true in Hage. by rewrite Hage.
  - simpl. rewrite Hrun. by rewrite Hrun'.
Qed.

(** A session of age 901 seconds is swept. *)
Lemma sweep_deletes_stale_and_is_idempotent_witness :
  ∃ cache',
    Store.sweep 1000 {[ "12345678" :=
                          {| Store.url := "https://vm.tiktok.com/ABC123";
                             Store.time := 99 |} ]} = Some cache'
    ∧ cache' !! "12345678" = None.
Proof.
  destruct (sweep_deletes_stale_and_is_idempotent 1000
              {[ "12345678" :=
                   {| Store.url := "https://vm.tiktok.com/ABC123";
                      Store.time := 99 |} ]})
    as (cache' & Hrun & Hgone & _).
  exists cache'. split; [exact Hrun|].
  apply (Hgone "12345678"
           {| Store.url := "https://vm.tiktok.com/ABC123";
              Store.time := 99 |}).
  - reflexivity.
  - reflexivity.
Defined.

(** ** Handlers *)

Section HandlerFacts.

Import Store.

Variable E : env.

Lemma preserves_ret {X A} (proj : world → X) (a : A) :
  preserves proj (mret a).
Proof. by intros w. Qed.

Lemma preserves_raise {X A} (proj : world → X) e :
  preserves proj (raise (A := A) e).
Proof. by intros w. Qed.

Lemma preserves_bind {X A B} (proj : world → X) (m : M A) (f : A → M B) :
  preserves proj m → (∀ a, preserves proj (f a)) → preserves proj (m ≫= f).
Proof.
  intros Hm Hf w. unfold mbind, M_bind. specialize (Hm w).
  destruct (m w) as [[a|e] w']; simpl in *; [|done].
  by rewrite Hf.
Qed.

Lemma preserves_try_except {X A} (proj : world → X) (m : M A) h :
  preserves proj m → (∀ e, preserves proj (h e)) →
  preserves proj (try_except m h).
Proof.
  intros Hm Hh w. unfold try_except. specialize (Hm w).
  destruct (m w) as [[a|e] w']; simpl in *; [done|].
  destruct (is_Exception e); simpl; [|done]. by rewrite Hh.
Qed.

Lemma preserves_try_finally {X A} (proj : world → X) (m : M A) final :
  preserves proj m → preserves proj final →
  preserves proj (try_finally m final).
Proof.
  intros Hm Hf w. unfold try_finally. specialize (Hm w).
  destruct (m w) as [r w']. specialize (Hf w').
  destruct (final w') as [[[]|e] w'']; simpl in *; congruence.
Qed.

Lemma send_keeps_cache ev : preserves URL_CACHE (send E ev).
Proof. intros w. unfold send. by destruct (messenger E (trace w) ev). Qed.

Lemma send_keeps_files ev : preserves files (send E ev).
Proof. intros w. unfold send. by destruct (messenger E (trace w) ev). Qed.

Lemma os_remove_keeps_cache path : preserves URL_CACHE (os_remove E path).
Proof. intros w. unfold os_remove. by case_match. Qed.

Lemma download_media_keeps_cache url fmt_id media_type :
  preserves URL_CACHE (download_media E url fmt_id media_type).
Proof.
  intros w. unfold download_media.
  destruct (ydl_fetch E _ url (files w)) as [[name|] fs]; [|done].
  by case_match.
Qed.

Lemma deliver_keeps_cache media_type path :
  preserves URL_CACHE (deliver E media_type path).
Proof.
  unfold deliver. apply preserves_bind; [|intros; apply send_keeps_cache].
  repeat case_match; apply send_keeps_cache.
Qed.

Lemma deliver_keeps_files media_type path :
  preserves files (deliver E media_type path).
Proof.
  unfold deliver. apply preserves_bind; [|intros; apply send_keeps_files].
  repeat case_match; apply send_keeps_files.
Qed.

Lemma select_type_found_keeps_cache url media_type uid :
  preserves URL_CACHE (select_type_found E url media_type uid).
Proof.
  unfold select_type_found.
  apply preserves_bind; [apply send_keeps_cache|]. intros _.
  apply preserves_bind; [apply preserves_ret|]. intros [info|];
    apply send_keeps_cache.
Qed.

Lemma download_found_keeps_cache url media_type fmt_id :
  preserves URL_CACHE (download_found E url media_type fmt_id).
Proof.
  unfold download_found.
  apply preserves_bind; [apply send_keeps_cache|]. intros _.
  apply preserves_bind; [apply download_media_keeps_cache|].
  intros [path|]; [|apply send_keeps_cache].
  apply preserves_bind; [done|]. intros present.
  case_match; [apply send_keeps_cache|].
  apply preserves_try_finally.
  - apply preserves_try_except; [apply deliver_keeps_cache|].
    intros _. apply send_keeps_cache.
  - apply preserves_try_except; [apply os_remove_keeps_cache|].
    intros _. apply preserves_ret.
Qed.

Lemma cb_select_type_keeps_cache data :
  preserves URL_CACHE (cb_select_type E data).
Proof.
  unfold cb_select_type.
  destruct (Py.split "|" 2 data) as [|? [|media_type [|uid [|? ?]]]];
    try apply preserves_raise.
  apply preserves_bind; [done|].
  intros [entry|]; [apply select_type_found_keeps_cache|apply send_keeps_cache].
Qed.

Lemma cb_download_keeps_cache data :
  preserves URL_CACHE (cb_download E data).
Proof.
  unfold cb_download.
  destruct (Py.split "|" 3 data)
    as [|? [|media_type [|fmt_id [|uid [|? ?]]]]];
    try apply preserves_raise.
  apply preserves_bind; [done|].
  intros [entry|]; [apply download_found_keeps_cache|apply send_keeps_cache].
Qed.

(** The lookups of the two callback handlers. *)
Lemma cb_select_type_found data tag media_type uid e w :
  Py.split "|" 2 data = [tag; media_type; uid] →
  URL_CACHE w !! uid = Some e →
  cb_select_type E data w = select_type_found E (url e) media_type uid w.
Proof.
  intros Hd He. unfold cb_select_type. rewrite Hd.
  unfold mbind, M_bind, cache_get. by rewrite He.
Qed.

Lemma cb_download_found data tag media_type fmt_id uid e w :
  Py.split "|" 3 data = [tag; media_type; fmt_id; uid] →
  URL_CACHE w !! uid = Some e →
  cb_download E data w = download_found E (url e) media_type fmt_id w.
Proof.
  intros Hd He. unfold cb_download. rewrite Hd.
  unfold mbind, M_bind, cache_get. by rewrite He.
Qed.

End HandlerFacts.

(** C3 (statement of the claim at a concrete input): a run of
    [cb_download] that downloads the file, uploads it, deletes the prompt
    and removes the file returns normally, and the session id it used is
    still bound in the cache afterwards. *)
Lemma c3_session_still_cached_after_delivery :
  let run := cb_download all_fine "dl|video|22|12345678" one_session in
  run.1 = Ok tt
  ∧ trace run.2
    = [ EditText DOWNLOADING None; AnswerVideo "downloads/clip.mp4";
        DeleteMessage; Remove "downloads/clip.mp4" ]
  ∧ elements (files run.2) = []
  ∧ URL_CACHE run.2 !! "12345678"
    = Some {| Store.url := "https://vm.tiktok.com/ABC123"; Store.time := 0 |}
  ∧ ¬ (URL_CACHE run.2 !! "12345678" = None).
Proof.
  assert (Hget : URL_CACHE
            (cb_download all_fine "dl|video|22|12345678" one_session).2
            !! "12345678"
          = Some {| Store.url := "https://vm.tiktok.com/ABC123";
                    Store.time := 0 |}) by (vm_compute; reflexivity).
  simpl. rewrite Hget.
  repeat split; try (vm_compute; reflexivity). discriminate.
Qed.

(** C3 (as amended): [cb_download] never removes the session it used.
    After a delivery, successful or not, the session id is still
    retrievable from the cache and bound to the same entry; only the
    sweeper removes it. *)
Theorem session_survives_delivery
    (E : env) (w : world) (data tag media_type fmt_id uid : string)
    (e : Store.entry) :
  Py.split "|" 3 data = [tag; media_type; fmt_id; uid] →
  URL_CACHE w !! uid = Some e →
  URL_CACHE (cb_download E data w).2 !! uid = Some e
  ∧ URL_CACHE (cb_download E data w).2 = URL_CACHE w.
Proof.
  intros _ He. by rewrite cb_download_keeps_cache.
Qed.

(** The session of a delivered video. *)
Lemma session_survives_delivery_witness :
  URL_CACHE (cb_download all_fine "dl|video|22|12345678" one_session).2
    !! "12345678"
  = Some {| Store.url := "https://vm.tiktok.com/ABC123"; Store.time := 0 |}.
Proof.
  apply (session_survives_delivery all_fine one_session
           "dl|video|22|12345678" "dl" "video" "22" "12345678"
           {| Store.url := "https://vm.tiktok.com/ABC123";
              Store.time := 0 |}).
  - reflexivity.
  - reflexivity.
Defined.

(** C6 (statement of the claim at a concrete input): the edit of the
    prompt is not guarded.  With a session id that is not in the cache and
    a transport that refuses the call, both handlers attempt the
    expired-session notice and the exception of that call leaves the
    handler: they do not return normally. *)
Lemma c6_refused_notice_raises :
  let notice := EditText SESSION_EXPIRED None in
  let w' := {| URL_CACHE := URL_CACHE one_session;
               files := files one_session;
               trace := [notice] |} in
  URL_CACHE one_session !! "0badc0de" = None
  ∧ cb_select_type transport_down "type|audio|0badc0de" one_session
    = (Raise TelegramError, w')
  ∧ cb_download transport_down "dl|audio|best|0badc0de" one_session
    = (Raise TelegramError, w')
  ∧ (cb_select_type transport_down "type|audio|0badc0de" one_session).1
    ≠ Ok tt
  ∧ (cb_download transport_down "dl|audio|best|0badc0de" one_session).1
    ≠ Ok tt.
Proof.
  assert (Hsel : cb_select_type transport_down "type|audio|0badc0de"
                   one_session
                 = (Raise TelegramError,
                    {| URL_CACHE := URL_CACHE one_session;
                       files := files one_session;
                       trace := [EditText SESSION_EXPIRED None] |}))
    by reflexivity.
  assert (Hdl : cb_download transport_down "dl|audio|best|0badc0de"
                  one_session
                = (Raise TelegramError,
                   {| URL_CACHE := URL_CACHE one_session;
                      files := files one_session;
                      trace := [EditText SESSION_EXPIRED None] |}))
    by reflexivity.
  cbv zeta. rewrite Hsel, Hdl.
  split; [reflexivity|]. split; [reflexivity|]. split; [reflexivity|].
  split; discriminate.
Qed.

(** C6 (as amended): when the session id of a type or quality action is
    not in the cache, the handler makes exactly one call, the edit of the
    prompt to the expired-session notice, and touches neither the cache
    nor the files: it is never a silent no-op and the missing id raises
    nothing.  Its outcome is that of this one call: a normal return when
    the transport accepts it, and the exception of the call when the
    transport refuses it. *)
Theorem expired_session_notice
    (E : env) (w : world)
    (data tag media_type uid : string)
    (data' tag' media_type' fmt_id' uid' : string) :
  Py.split "|" 2 data = [tag; media_type; uid] →
  URL_CACHE w !! uid = None →
  Py.split "|" 3 data' = [tag'; media_type'; fmt_id'; uid'] →
  URL_CACHE w !! uid' = None →
  let notice := EditText SESSION_EXPIRED None in
  let outcome :=
    match messenger E (trace w) notice with
    | None => Ok tt
    | Some e => Raise e
    end in
  let w' := {| URL_CACHE := URL_CACHE w; files := files w;
               trace := trace w ++ [notice] |} in
  cb_select_type E data w = (outcome, w')
  ∧ cb_download E data' w = (outcome, w').
Proof.
  intros Hd Hu Hd' Hu'. simpl. split.
  - unfold cb_select_type. rewrite Hd.
    unfold mbind, M_bind, cache_get. rewrite Hu. unfold send, log.
    by destruct (messenger E (trace w) _).
  - unfold cb_download. rewrite Hd'.
    unfold mbind, M_bind, cache_get. rewrite Hu'. unfold send, log.
    by destruct (messenger E (trace w) _).
Qed.

(** Two buttons carrying an id that was never stored. *)
Lemma expired_session_notice_witness :
  cb_select_type all_fine "type|audio|0badc0de" one_session
  = (Ok tt,
     {| URL_CACHE := URL_CACHE one_session; files := files one_session;
        trace := [EditText SESSION_EXPIRED None] |})
  ∧ cb_download all_fine "dl|audio|best|0badc0de" one_session
    = (Ok tt,
       {| URL_CACHE := URL_CACHE one_session; files := files one_session;
          trace := [EditText SESSION_EXPIRED None] |}).
Proof.
  apply (expired_session_notice all_fine one_session
           "type|audio|0badc0de" "type" "audio" "0badc0de"
           "dl|audio|best|0badc0de" "dl" "audio" "best" "0badc0de").
  - reflexivity.
  - reflexivity.
  - reflexivity.
  - reflexivity.
Defined.

(** C7: whenever [cb_download] got a file from the provider, the last
    thing it does, after the upload and the notices and whatever their
    outcome, is [os.remove] on that file: the file is gone unless the
    removal itself fails, and the removal never changes the outcome of the
    handler, which is that of the delivery step alone. *)
Theorem downloaded_file_removed_in_every_case
    (E : env) (w w1 : world)
    (data tag media_type fmt_id uid path : string) (e : Store.entry) :
  Py.split "|" 3 data = [tag; media_type; fmt_id; uid] →
  URL_CACHE w !! uid = Some e →
  messenger E (trace w) (EditText DOWNLOADING None) = None →
  download_media E (Store.url e) (Some fmt_id) media_type
    (log (EditText DOWNLOADING None) w) = (Ok (Some path), w1) →
  path ≠ "" →
  path ∈ files w1 →
  let delivery :=
    try_except (deliver E media_type path)
      (λ _, send E (EditText SEND_FAILED None)) w1 in
  let run := cb_download E data w in
  run.1 = delivery.1
  ∧ trace run.2 = trace delivery.2 ++ [Remove path]
  ∧ files run.2
    = (if remove_fails E path then files w1 else files w1 ∖ {[path]})
  ∧ (remove_fails E path = false → path ∉ files run.2).
Proof.
  intros Hd He Hm Hdl Hne Hin delivery run.
  assert (Hfiles : files delivery.2 = files w1).
  { apply (preserves_try_except files);
      [apply deliver_keeps_files|intros _; apply send_keeps_files]. }
  assert (Hrun : run
    = try_finally
        (try_except (deliver E media_type path)
           (λ _, send E (EditText SEND_FAILED None)))
        (try_except (os_remove E path) (λ _, mret tt)) w1).
  { unfold run. rewrite (cb_download_found E _ _ _ _ _ _ _ Hd He).
    unfold download_found, mbind, M_bind at 1.
    unfold send at 1. rewrite Hm.
    unfold M_bind at 1. rewrite Hdl.
    unfold M_bind at 1, path_exists.
    rewrite (bool_decide_eq_true_2 _ Hin).
    apply String.eqb_neq in Hne. by rewrite Hne. }
  rewrite Hrun. unfold try_finally. fold delivery.
  destruct delivery as [r wd] eqn:Hdel. simpl in Hfiles.
  unfold try_except, os_remove. simpl. rewrite Hfiles.
  rewrite (bool_decide_eq_true_2 _ Hin). simpl.
  destruct (remove_fails E path); simpl.
  - repeat split; try done.
  - repeat split; try done.
    intros _ [_ Hout]%elem_of_difference. apply Hout. by apply elem_of_singleton.
Qed.

(** A download whose upload is refused: the file is removed all the
    same. *)
Lemma downloaded_file_removed_in_every_case_witness :
  let run := cb_download upload_refused "dl|video|22|12345678" one_session in
  trace run.2
  = trace (try_except (deliver upload_refused "video" "downloads/clip.mp4")
             (λ _, send upload_refused (EditText SEND_FAILED None))
             {| URL_CACHE := URL_CACHE one_session;
                files := ∅ ∪ {["downloads/clip.mp4"]};
                trace := [EditText DOWNLOADING None] |}).2
    ++ [Remove "downloads/clip.mp4"]
  ∧ "downloads/clip.mp4" ∉ files run.2.
Proof.
  pose proof (downloaded_file_removed_in_every_case upload_refused
    one_session
    {| URL_CACHE := URL_CACHE one_session;
       files := ∅ ∪ {["downloads/clip.mp4"]};
       trace := [EditText DOWNLOADING None] |}
    "dl|video|22|12345678" "dl" "video" "22" "12345678"
    "downloads/clip.mp4"
    {| Store.url := "https://vm.tiktok.com/ABC123"; Store.time := 0 |}) as H.
  destruct H as (_ & Htrace & _ & Hgone).
  - reflexivity.
  - reflexivity.
  - reflexivity.
  - reflexivity.
  - discriminate.
  - simpl. apply elem_of_union_r. by apply elem_of_singleton.
  - split; [exact Htrace|]. apply Hgone. reflexivity.
Defined.

(** C9: a session created by [build_type_keyboard] is found again at once
    under the id carried by each of the three buttons of the returned
    keyboard: [cb_select_type] reads back the original url, and the lookup
    leaves the entry, creation time included, as it was stored. *)
Theorem put_then_get_returns_url
    (E : env) (r : Z) (now : Q) (url : string) (w : world) :
  let run := build_type_keyboard r now url w in
  let uid := Uuid.session_id r in
  let stored := {| Store.url := url; Store.time := now |} in
  ∃ kb,
    run.1 = Ok kb
    ∧ URL_CACHE run.2 !! uid = Some stored
    ∧ length (choices kb) = 3
    ∧ Forall
        (λ button,
           ∃ media_type,
             cb_select_type E (callback_data button) run.2
             = select_type_found E url media_type uid run.2
             ∧ URL_CACHE (cb_select_type E (callback_data button) run.2).2
                 !! uid = Some stored)
        (choices kb).
Proof.
  simpl. eexists. split; [reflexivity|].
  set (w1 := (build_type_keyboard r now url w).2).
  assert (Hget : URL_CACHE w1 !! Uuid.session_id r
                 = Some {| Store.url := url; Store.time := now |})
    by apply lookup_insert_eq.
  split; [exact Hget|]. split; [reflexivity|].
  unfold choices. simpl.
  repeat apply Forall_cons_2; [| | |apply Forall_nil_2].
  - exists "video". split.
    + apply (cb_select_type_found E _ "type" "video" (Uuid.session_id r)
               {| Store.url := url; Store.time := now |});
        [reflexivity|exact Hget].
    + by rewrite cb_select_type_keeps_cache.
  - exists "audio". split.
    + apply (cb_select_type_found E _ "type" "audio" (Uuid.session_id r)
               {| Store.url := url; Store.time := now |});
        [reflexivity|exact Hget].
    + by rewrite cb_select_type_keeps_cache.
  - exists "thumbnail". split.
    + apply (cb_select_type_found E _ "type" "thumbnail" (Uuid.session_id r)
               {| Store.url := url; Store.time := now |});
        [reflexivity|exact Hget].
    + by rewrite cb_select_type_keeps_cache.
Qed.

(** C10: the handlers never look at the age of a session.  An entry that
    the sweep at reading [s] left in the cache is still returned by the
    lookup at any later reading [g] before the next sweep, also when its
    age at [g] exceeds the TTL, and both callback handlers then go on
    exactly as for a fresh session; its age at [g] stays below the TTL plus
    one sweep interval. *)
Theorem stale_session_served_until_swept
    (E : env) (w : world) (uid : string) (e : Store.entry) (s g : Q)
    (data tag media_type : string)
    (data' tag' media_type' fmt_id : string) :
  URL_CACHE w !! uid = Some e →
  (s - Store.time e <= Store.CACHE_TTL)%Q →
  (g < s + Store.SWEEP_INTERVAL)%Q →
  (Store.CACHE_TTL < g - Store.time e)%Q →
  Py.split "|" 2 data = [tag; media_type; uid] →
  Py.split "|" 3 data' = [tag'; media_type'; fmt_id; uid] →
  ∃ cache',
    Store.sweep s (URL_CACHE w) = Some cache'
    ∧ cache' !! uid = Some e
    ∧ (let w' := {| URL_CACHE := cache'; files := files w;
                    trace := trace w |} in
       cb_select_type E data w'
       = select_type_found E (Store.url e) media_type uid w'
       ∧ cb_download E data' w'
         = download_found E (Store.url e) media_type' fmt_id w')
    ∧ (g - Store.time e < Store.CACHE_TTL + Store.SWEEP_INTERVAL)%Q.
Proof.
  intros He Hs Hg Hstale Hd Hd'.
  destruct (sweep_spec s (URL_CACHE w)) as (cache' & Hrun & Hget).
  exists cache'. split; [exact Hrun|].
  assert (Hkept : cache' !! uid = Some e).
  { rewrite Hget, He. destruct (Store.stale s e) eqn:Hst; [|done].
    apply stale_true in Hst. by apply Qlt_not_le in Hst. }
  split; [exact Hkept|]. split.
  - split.
    + by apply (cb_select_type_found E data tag media_type uid e).
    + by apply (cb_download_found E data' tag' media_type' fmt_id uid e).
  - unfold Store.CACHE_TTL, Store.SWEEP_INTERVAL in *. lra.
Qed.

(** A session created at reading 0, kept by the sweep at 900 and used at
    1199. *)
Lemma stale_session_served_until_swept_witness :
  ∃ cache',
    Store.sweep 900 (URL_CACHE one_session) = Some cache'
    ∧ cache' !! "12345678"
      = Some {| Store.url := "https://vm.tiktok.com/ABC123";
                Store.time := 0 |}
    ∧ cb_select_type all_fine "type|video|12345678"
        {| URL_CACHE := cache'; files := ∅; trace := [] |}
      = select_type_found all_fine "https://vm.tiktok.com/ABC123" "video"
          "12345678" {| URL_CACHE := cache'; files := ∅; trace := [] |}.
Proof.
  destruct (stale_session_served_until_swept all_fine one_session
              "12345678"
              {| Store.url := "https://vm.tiktok.com/ABC123";
                 Store.time := 0 |}
              900 1199
              "type|video|12345678" "type" "video"
              "dl|video|22|12345678" "dl" "video" "22")
    as (cache' & Hrun & Hkept & [Hsel _] & _).
  - reflexivity.
  - discriminate.
  - reflexivity.
  - reflexivity.
  - reflexivity.
  - reflexivity.
  - exists cache'. split; [exact Hrun|]. split; [exact Hkept|]. exact Hsel.
Defined.

(** ** Link extractor *)

(** One link per pattern family with the platform name the handler shows:
    the long forms are named after their dictionary key. *)
Lemma platform_of_sample_links :
  (Link.detect_platform <$> Link.extract_url "https://vm.tiktok.com/ABC123")
  = Some "Tiktok"
  ∧ (Link.detect_platform
       <$> Link.extract_url "https://www.instagram.com/reel/Cx1/")
    = Some "Instagram"
  ∧ (Link.detect_platform <$> Link.extract_url "https://vk.com/video-1_2")
    = Some "Vk"
  ∧ (Link.detect_platform
       <$> Link.extract_url "https://www.pinterest.com/pin/99/")
    = Some "Pinterest"
  ∧ Link.extract_url "no link here" = None.
Proof. repeat split; vm_compute; reflexivity. Qed.

(** C5 (the code at a short YouTube link): [extract_url] returns the link
    found in the text, recognised by the youtube pattern, and
    [detect_platform] names its platform Unknown, because the link holds
    none of the pattern keys. *)
Theorem youtu_be_link_has_unknown_platform :
  Link.extract_url "check this https://youtu.be/dQw4w9WgXcQ"
  = Some "https://youtu.be/dQw4w9WgXcQ"
  ∧ (∃ pattern,
       Link.URL_PATTERNS !! 1%nat = Some ("youtube", pattern)
       ∧ Re.search pattern "check this https://youtu.be/dQw4w9WgXcQ"
         = Some "https://youtu.be/dQw4w9WgXcQ")
  ∧ Link.detect_platform "https://youtu.be/dQw4w9WgXcQ" = "Unknown"
  ∧ Link.detect_platform "https://www.youtube.com/shorts/dQw4w9WgXcQ"
    = "Youtube".
Proof.
  split; [vm_compute; reflexivity|]. split.
  - eexists. split; [reflexivity|]. vm_compute. reflexivity.
  - split; vm_compute; reflexivity.
Qed.

(** * Further properties *)

(** ** Splitting callback data *)

Section SplitFacts.

Variable sep : Ascii.ascii.

Lemma cut_no_sep s : Py.count sep s = 0 → Py.cut sep s = (s, None).
Proof.
  induction s as [|c s IH]; simpl; [done|].
  destruct (Ascii.eqb c sep); simpl; [done|].
  intros H. by rewrite IH.
Qed.

Lemma cut_at_sep a b :
  Py.count sep a = 0 → Py.cut sep (a +:+ String sep b) = (a, Some b).
Proof.
  induction a as [|c a IH]; simpl.
  - by rewrite Ascii.eqb_refl.
  - destruct (Ascii.eqb c sep); simpl; [done|].
    intros H. by rewrite IH.
Qed.

(** What [cut] returns describes the text it was given. *)
Lemma cut_spec s piece rest :
  Py.cut sep s = (piece, rest) →
  Py.count sep piece = 0
  ∧ match rest with
    | Some t => s = piece +:+ String sep t
                ∧ Py.count sep s = S (Py.count sep t)
    | None => s = piece
    end.
Proof.
  revert piece rest. induction s as [|c s IH]; intros piece rest; simpl.
  - by intros [= <- <-].
  - destruct (Ascii.eqb c sep) eqn:Hc.
    + apply Ascii.eqb_eq in Hc as ->. by intros [= <- <-].
    + destruct (Py.cut sep s) as [p r]. intros [= <- <-].
      destruct (IH p r eq_refl) as [Hp Hr]. simpl. rewrite Hc. split; [done|].
      destruct r as [t|]; [|by rewrite Hr].
      destruct Hr as [-> Hn]. by rewrite <- Hn.
Qed.

Lemma split_at_sep n a b :
  Py.count sep a = 0 →
  Py.split sep (S n) (a +:+ String sep b) = a :: Py.split sep n b.
Proof. intros H. simpl. by rewrite cut_at_sep. Qed.

(** The number of pieces: one more than the cuts made. *)
Lemma length_split n s :
  length (Py.split sep n s) = S (Nat.min n (Py.count sep s)).
Proof.
  revert s. induction n as [|n IH]; intros s; simpl; [done|].
  destruct (Py.cut sep s) as [piece [t|]] eqn:Hcut;
    apply cut_spec in Hcut as [Hp Hs].
  - destruct Hs as [_ ->]. simpl. by rewrite IH.
  - subst s. by rewrite Hp.
Qed.

(** Joining the pieces gives the text back. *)
Lemma join_split n s : Py.join sep (Py.split sep n s) = s.
Proof.
  revert s. induction n as [|n IH]; intros s; simpl; [done|].
  destruct (Py.cut sep s) as [piece [t|]] eqn:Hcut;
    apply cut_spec in Hcut as [Hp Hs]; [|done].
  destruct Hs as [-> _]. specialize (IH t).
  destruct (Py.split sep n t) as [|x l] eqn:Hsp.
  - pose proof (length_split n t) as Hl. rewrite Hsp in Hl. done.
  - change (Py.join sep (piece :: x :: l))
      with (piece +:+ String sep (Py.join sep (x :: l))).
    by rewrite IH.
Qed.

(** All pieces but the last are free of the separator. *)
Lemma split_pieces n s i piece :
  Py.split sep n s !! i = Some piece →
  S i < length (Py.split sep n s) →
  Py.count sep piece = 0.
Proof.
  revert s i. induction n as [|n IH]; intros s i; simpl.
  - intros _ H. lia.
  - destruct (Py.cut sep s) as [p [t|]] eqn:Hcut;
      apply cut_spec in Hcut as [Hp Hs]; simpl.
    + destruct i as [|i]; simpl.
      * by intros [= <-].
      * intros Hi Hlen. apply (IH t i); [done|lia].
    + intros _ H. lia.
Qed.

End SplitFacts.

(** ** The callback handlers on any data *)

Section CallbackFacts.

Variable E : env.

Lemma send_run ev w : send E ev w = (verdict E w ev, log ev w).
Proof. unfold send, verdict. by destruct (messenger E (trace w) ev). Qed.

Lemma select_type_found_keeps_files url media_type uid :
  preserves files (select_type_found E url media_type uid).
Proof.
  unfold select_type_found.
  apply preserves_bind; [apply send_keeps_files|]. intros _.
  apply preserves_bind; [apply preserves_ret|]. intros [i|];
    apply send_keeps_files.
Qed.

(** Once the entry is found, [cb_select_type] edits the prompt once or
    twice and does nothing else. *)
Lemma select_type_found_trace url media_type uid w :
  ∃ evs,
    trace (select_type_found E url media_type uid w).2 = trace w ++ evs
    ∧ 1 ≤ length evs ≤ 2
    ∧ Forall (λ ev, is_edit ev = true) evs.
Proof.
  unfold select_type_found, mbind, M_bind. rewrite send_run.
  destruct (verdict E w (EditText FETCHING_FORMATS None)) as [[]|e].
  - unfold get_video_info, mret, M_ret.
    destruct (ydl_probe E url) as [i|]; rewrite send_run; simpl;
      rewrite <- app_assoc; eexists; (split; [reflexivity|]);
      (split; [simpl; lia|]); by repeat constructor.
  - exists [EditText FETCHING_FORMATS None]. simpl.
    split; [done|]. split; [lia|]. by repeat constructor.
Qed.

(** Data with fewer than two separators cannot be unpacked. *)
Lemma cb_select_type_short data w :
  Py.count "|" data < 2 → cb_select_type E data w = (Raise ValueError, w).
Proof.
  intros Hn. pose proof (length_split "|" 2 data) as Hlen.
  unfold cb_select_type.
  destruct (Py.split "|" 2 data) as [|tag [|media_type [|uid [|? ?]]]];
    cbn [length] in Hlen; try done; lia.
Qed.

End CallbackFacts.

(** X1: [cb_select_type] on any callback data.  With fewer than two
    separators the unpacking fails: the handler raises [ValueError] and
    has done nothing.  Otherwise it edits the prompt once or twice and
    makes no other call; in both cases the cache and the files are left
    as they were. *)
Theorem cb_select_type_effects (E : env) (data : string) (w : world) :
  let run := cb_select_type E data w in
  URL_CACHE run.2 = URL_CACHE w
  ∧ files run.2 = files w
  ∧ (Py.count "|" data < 2 → run = (Raise ValueError, w))
  ∧ (2 ≤ Py.count "|" data →
     ∃ evs,
       trace run.2 = trace w ++ evs
       ∧ 1 ≤ length evs ≤ 2
       ∧ Forall (λ ev, is_edit ev = true) evs).
Proof.
  simpl. split; [apply cb_select_type_keeps_cache|].
  pose proof (length_split "|" 2 data) as Hlen.
  unfold cb_select_type.
  destruct (Py.split "|" 2 data) as [|tag [|media_type [|uid [|? ?]]]];
    cbn [length] in Hlen.
  - lia.
  - split; [done|]. split; [done|]. lia.
  - split; [done|]. split; [done|]. lia.
  - unfold mbind, M_bind, cache_get.
    destruct (URL_CACHE w !! uid) as [e|].
    + split; [apply select_type_found_keeps_files|]. split; [lia|].
      intros _. apply select_type_found_trace.
    + rewrite send_run. simpl. split; [done|]. split; [lia|]. intros _.
      exists [EditText SESSION_EXPIRED None].
      split; [done|]. split; [simpl; lia|]. by repeat constructor.
  - lia.
Qed.

Lemma cb_select_type_effects_witness :
  cb_select_type all_fine "type|video" one_session
  = (Raise ValueError, one_session).
Proof.
  apply (cb_select_type_effects all_fine "type|video" one_session).
  simpl. lia.
Defined.

(** X2: when [cb_download] has found the session and announced the
    download, and the provider then gives no file (it raised, it named
    nothing, or the file it named is not on disk), the handler edits the
    prompt to the download-failed notice and stops: nothing is uploaded
    and nothing is removed. *)
Theorem cb_download_without_file
    (E : env) (w w1 : world) (data tag media_type fmt_id uid : string)
    (e : Store.entry) (p : option string) :
  Py.split "|" 3 data = [tag; media_type; fmt_id; uid] →
  URL_CACHE w !! uid = Some e →
  messenger E (trace w) (EditText DOWNLOADING None) = None →
  download_media E (Store.url e) (Some fmt_id) media_type
    (log (EditText DOWNLOADING None) w) = (Ok p, w1) →
  (p = None ∨ p = Some "" ∨ ∃ path, p = Some path ∧ path ∉ files w1) →
  cb_download E data w
  = (verdict E w1 (EditText DOWNLOAD_FAILED None),
     log (EditText DOWNLOAD_FAILED None) w1).
Proof.
  intros Hd He Hm Hdl Hp.
  rewrite (cb_download_found E _ _ _ _ _ _ _ Hd He).
  unfold download_found, mbind, M_bind at 1.
  rewrite send_run. unfold verdict at 1. rewrite Hm.
  unfold M_bind at 1. rewrite Hdl.
  destruct Hp as [->|[->|(path & -> & Hout)]].
  - apply send_run.
  - unfold M_bind, path_exists. simpl. apply send_run.
  - unfold M_bind, path_exists.
    rewrite (bool_decide_eq_false_2 _ Hout), orb_true_r. apply send_run.
Qed.

Lemma cb_download_without_file_witness :
  cb_download provider_down "dl|video|22|12345678" one_session
  = (Ok tt,
     {| URL_CACHE := URL_CACHE one_session; files := ∅;
        trace := [EditText DOWNLOADING None;
                  EditText DOWNLOAD_FAILED None] |}).
Proof.
  apply (cb_download_without_file provider_down one_session
           {| URL_CACHE := URL_CACHE one_session; files := ∅;
              trace := [EditText DOWNLOADING None] |}
           "dl|video|22|12345678" "dl" "video" "22" "12345678"
           {| Store.url := "https://vm.tiktok.com/ABC123";
              Store.time := 0 |} None).
  - reflexivity.
  - reflexivity.
  - reflexivity.
  - reflexivity.
  - left. reflexivity.
Defined.

Lemma prefix_head a s1 b s2 :
  String.prefix (String a s1) (String b s2) = true → a = b.
Proof.
  change (String.prefix (String a s1) (String b s2))
    with (if ascii_dec a b then String.prefix s1 s2 else false).
  by destruct (ascii_dec a b).
Qed.

(** X3: the two filters registered in [main] accept data that the
    handlers cannot unpack.  A press whose data starts with [type|] but
    holds a single separator, or starts with [dl|] and holds fewer than
    three, ends in [ValueError] with nothing done; a press whose data has
    neither prefix reaches no handler and does nothing. *)
Theorem on_callback_query_short_data (E : env) (data : string) (w : world) :
  (String.prefix "type|" data = true → Py.count "|" data < 2 →
   on_callback_query E data w = (Raise ValueError, w))
  ∧ (String.prefix "dl|" data = true → Py.count "|" data < 3 →
     on_callback_query E data w = (Raise ValueError, w))
  ∧ (String.prefix "type|" data = false → String.prefix "dl|" data = false →
     on_callback_query E data w = (Ok false, w)).
Proof.
  unfold on_callback_query. split; [|split].
  - intros -> Hn. unfold mbind, M_bind.
    by rewrite (cb_select_type_short E data w Hn).
  - intros Hdl Hn.
    destruct (String.prefix "type|" data) eqn:Htype.
    { destruct data as [|c1 data]; [by vm_compute in Htype|].
      apply prefix_head in Htype, Hdl. congruence. }
    rewrite Hdl. unfold mbind, M_bind, cb_download.
    pose proof (length_split "|" 3 data) as Hlen.
    destruct (Py.split "|" 3 data) as [|? [|? [|? [|? [|? ?]]]]];
      cbn [length] in Hlen; try done; lia.
  - by intros -> ->.
Qed.

Lemma on_callback_query_short_data_witness :
  on_callback_query all_fine "type|video" one_session
  = (Raise ValueError, one_session)
  ∧ on_callback_query all_fine "dl|video|22" one_session
    = (Raise ValueError, one_session)
  ∧ on_callback_query all_fine "noop" one_session = (Ok false, one_session).
Proof.
  destruct (on_callback_query_short_data all_fine "type|video" one_session)
    as (H1 & _ & _).
  destruct (on_callback_query_short_data all_fine "dl|video|22" one_session)
    as (_ & H2 & _).
  destruct (on_callback_query_short_data all_fine "noop" one_session)
    as (_ & _ & H3).
  split; [|split].
  - apply H1; [reflexivity|simpl; lia].
  - apply H2; [reflexivity|simpl; lia].
  - apply H3; reflexivity.
Defined.

(** ** Buttons and the data they carry *)

Lemma prefix_append (a b : string) : String.prefix a (a +:+ b) = true.
Proof. apply String.prefix_correct, substring_append. Qed.

(** The data of a quality button, cut at its three separators. *)
Lemma split_quality_data media_type fmt uid :
  Py.count "|" media_type = 0 →
  Py.count "|" fmt = 0 →
  Py.split "|" 3 ("dl|" +:+ media_type +:+ "|" +:+ fmt +:+ "|" +:+ uid)
  = ["dl"; media_type; fmt; uid].
Proof.
  intros Hm Hf.
  change ("dl|" +:+ media_type +:+ "|" +:+ fmt +:+ "|" +:+ uid)
    with ("dl" +:+ String "|"
            (media_type +:+ String "|" (fmt +:+ String "|" uid))).
  by rewrite !split_at_sep.
Qed.

(** X4: what the quality keyboard writes, [cb_download] reads back.  When
    neither the media type nor the format ids hold the separator, every
    button of the keyboard built for a stored session carries data that
    the [dl|] filter accepts and the handler unpacks into the same media
    type and session id and into the format id of an offered encoding (or
    [best] for the fallback button), so that the press starts the download
    for the url of that session. *)
Theorem quality_button_round_trip
    (E : env) (w : world) (formats : list (gmap string Py.pyval))
    (media_type uid : string) (e : Store.entry)
    (button : InlineKeyboardButton) :
  Py.count "|" media_type = 0 →
  Forall (λ f, Py.count "|" (Py.format (Py.get f "format_id")) = 0) formats →
  URL_CACHE w !! uid = Some e →
  button ∈ choices (Selector.build_quality_keyboard formats media_type uid) →
  ∃ fmt,
    Py.split "|" 3 (callback_data button) = ["dl"; media_type; fmt; uid]
    ∧ (fmt = "best"
       ∨ ∃ f, f ∈ formats ∧ Selector.offered f = true
              ∧ fmt = Py.format (Py.get f "format_id"))
    ∧ on_callback_query E (callback_data button) w
      = (download_found E (Store.url e) media_type fmt;; mret true) w.
Proof.
  intros Hm Hfs He Hb. rewrite choices_build_quality_keyboard in Hb.
  assert (Hgo : ∀ fmt,
    Py.split "|" 3 (callback_data button) = ["dl"; media_type; fmt; uid] →
    String.prefix "dl|" (callback_data button) = true →
    String.prefix "type|" (callback_data button) = false →
    on_callback_query E (callback_data button) w
    = (download_found E (Store.url e) media_type fmt;; mret true) w).
  { intros fmt Hsplit Hdl Htype. unfold on_callback_query.
    rewrite Htype, Hdl. unfold mbind, M_bind.
    by rewrite (cb_download_found E _ _ _ _ _ _ _ Hsplit He). }
  assert (Hbest : Py.count "|" "best" = 0) by done.
  destruct (List.filter Selector.offered formats) as [|f0 fs] eqn:Hfilter.
  - apply list_elem_of_singleton in Hb as ->. exists "best".
    pose proof (split_quality_data media_type "best" uid Hm Hbest) as Hs.
    split; [exact Hs|]. split; [by left|].
    apply Hgo; [exact Hs|apply (prefix_append "dl|")|reflexivity].
  - rewrite <- Hfilter in Hb. apply list_elem_of_fmap in Hb as (f & -> & Hf).
    apply list_elem_of_In, filter_In in Hf as [Hf Hoff].
    apply list_elem_of_In in Hf. rewrite Forall_forall in Hfs.
    pose proof (split_quality_data media_type _ uid Hm (Hfs f Hf)) as Hs.
    exists (Py.format (Py.get f "format_id")).
    split; [exact Hs|]. split; [right; by exists f|].
    apply Hgo; [exact Hs|apply (prefix_append "dl|")|reflexivity].
Qed.

Lemma quality_button_round_trip_witness :
  ∃ fmt,
    Py.split "|" 3 "dl|audio|22|12345678" = ["dl"; "audio"; fmt; "12345678"]
    ∧ on_callback_query all_fine "dl|audio|22|12345678" one_session
      = (download_found all_fine "https://vm.tiktok.com/ABC123" "audio" fmt;;
         mret true) one_session.
Proof.
  destruct (quality_button_round_trip all_fine one_session
              [Selector.mp4 "18" 480; Selector.mp4 "22" 720]
              "audio" "12345678"
              {| Store.url := "https://vm.tiktok.com/ABC123";
                 Store.time := 0 |}
              {| text := "720p"; callback_data := "dl|audio|22|12345678" |})
    as (fmt & Hsplit & _ & Hrun).
  - reflexivity.
  - repeat constructor.
  - reflexivity.
  - rewrite choices_build_quality_keyboard. vm_compute.
    apply list_elem_of_further, list_elem_of_here.
  - exists fmt. split; [exact Hsplit|exact Hrun].
Defined.

(** X5: a format id that holds the separator breaks the round trip.  The
    handler cuts the data of such a button inside the format id, and the
    session id it looks up is longer than the one the button was built
    for. *)
Theorem quality_button_with_separator
    (media_type uid : string) (f : gmap string Py.pyval) :
  Py.count "|" media_type = 0 →
  1 ≤ Py.count "|" (Py.format (Py.get f "format_id")) →
  ∃ fmt uid',
    Py.split "|" 3
      (callback_data (Selector.quality_button media_type uid f))
    = ["dl"; media_type; fmt; uid']
    ∧ String.length uid < String.length uid'
    ∧ uid' ≠ uid.
Proof.
  intros Hm Hf. cbn [callback_data Selector.quality_button].
  destruct (Py.cut "|" (Py.format (Py.get f "format_id")))
    as [a [b|]] eqn:Hcut; apply cut_spec in Hcut as [Ha Hs].
  - destruct Hs as [-> _]. exists a, (b +:+ String "|" uid).
    assert (Hlen : String.length uid
                   < String.length (b +:+ String "|" uid)).
    { rewrite length_append. simpl. lia. }
    split; [|split; [exact Hlen|]].
    + assert (Hdata :
        "dl|" +:+ media_type +:+ "|" +:+ (a +:+ String "|" b) +:+ "|" +:+ uid
        = "dl" +:+ String "|"
            (media_type +:+ String "|"
               (a +:+ String "|" (b +:+ String "|" uid)))).
      { change ("dl|" +:+ media_type +:+ "|"
                  +:+ (a +:+ String "|" b) +:+ "|" +:+ uid)
          with ("dl" +:+ String "|"
                  (media_type +:+ String "|"
                     ((a +:+ String "|" b) +:+ String "|" uid))).
        by rewrite append_assoc. }
      rewrite Hdata. by rewrite !split_at_sep.
    + intros Heq. rewrite Heq in Hlen. lia.
  - subst a. lia.
Qed.

Lemma quality_button_with_separator_witness :
  ∃ fmt uid',
    Py.split "|" 3
      (callback_data
         (Selector.quality_button "video" "12345678"
            (Selector.mp4 "hls|720" 720)))
    = ["dl"; "video"; fmt; uid']
    ∧ uid' ≠ "12345678".
Proof.
  destruct (quality_button_with_separator "video" "12345678"
              (Selector.mp4 "hls|720" 720))
    as (fmt & uid' & Hsplit & _ & Hne).
  - reflexivity.
  - vm_compute. lia.
  - exists fmt, uid'. split; [exact Hsplit|exact Hne].
Defined.

(** ** Rows of the quality keyboard *)

Lemma lookup_rows {A} (l : list A) i row :
  ((λ i, Py.slice l i (i + 3)) <$> Py.range 0 (length l) 3) !! i = Some row →
  3 * i < length l ∧ row = take 3 (drop (3 * i) l).
Proof.
  unfold Py.range. rewrite <- list_fmap_compose, list_lookup_fmap.
  intros Hi. apply fmap_Some in Hi as (k & Hk & ->).
  apply lookup_seq in Hk as [-> Hk]. rewrite Nat.add_0_l in *.
  pose proof (Nat.div_mod_eq (length l - 0 + 3 - 1) 3) as Hd.
  pose proof (Nat.mod_upper_bound (length l - 0 + 3 - 1) 3) as Hm.
  split; [lia|]. unfold Py.slice, compose. rewrite Nat.add_0_l.
  replace (i * 3 + 3 - i * 3) with 3 by lia. do 2 f_equal. lia.
Qed.

(** X6: the quality keyboard is never empty and is laid out in rows of
    three: every row holds the next three choices in order, only the last
    row can hold fewer, and no row is empty. *)
Theorem quality_keyboard_rows
    (formats : list (gmap string Py.pyval)) (media_type uid : string) :
  let kb := Selector.build_quality_keyboard formats media_type uid in
  1 ≤ length (choices kb)
  ∧ 3 * length (inline_keyboard kb) < length (choices kb) + 3
  ∧ ∀ i row,
      inline_keyboard kb !! i = Some row →
      row = take 3 (drop (3 * i) (choices kb))
      ∧ 1 ≤ length row ≤ 3
      ∧ (S i < length (inline_keyboard kb) → length row = 3).
Proof.
  intros kb.
  assert (Hn : 1 ≤ length (choices kb)).
  { unfold kb. rewrite choices_build_quality_keyboard.
    destruct (List.filter Selector.offered formats); simpl; lia. }
  unfold choices, kb, Selector.build_quality_keyboard in *.
  cbn [inline_keyboard] in *. rewrite concat_rows in *.
  set (l := match fold_left _ formats [] with [] => _ | _ => _ end) in *.
  assert (Hrows : 3 * length ((λ i, Py.slice l i (i + 3))
                               <$> Py.range 0 (length l) 3) < length l + 3).
  { unfold Py.range. rewrite !length_fmap, length_seq.
    pose proof (Nat.div_mod_eq (length l - 0 + 3 - 1) 3) as Hd.
    pose proof (Nat.mod_upper_bound (length l - 0 + 3 - 1) 3) as Hm. lia. }
  split; [exact Hn|]. split; [exact Hrows|].
  intros i row Hrow. apply lookup_rows in Hrow as [Hi ->].
  split; [done|]. rewrite length_take, length_drop. split; [lia|].
  intros Hlast. lia.
Qed.

Lemma quality_keyboard_rows_witness :
  length <$> inline_keyboard
               (Selector.build_quality_keyboard
                  Selector.heights_360_720_720_1080 "video" "12345678")
  = [3; 1].
Proof.
  pose proof (quality_keyboard_rows Selector.heights_360_720_720_1080
                "video" "12345678") as (_ & _ & Hrow).
  destruct (Hrow 0 _ eq_refl) as (_ & _ & H0).
  destruct (Hrow 1 _ eq_refl) as (-> & _ & _).
  reflexivity.
Defined.

(** ** More on the sweeper *)

Section SweeperFacts.

Import Store.

Lemma stale_mono (s now : Q) v :
  (s <= now)%Q → stale s v = true → stale now v = true.
Proof.
  intros Hle Hs. apply stale_true in Hs. apply stale_true.
  unfold CACHE_TTL in *. lra.
Qed.

Lemma stale_false now v :
  stale now v = false ↔ (now - time v <= CACHE_TTL)%Q.
Proof.
  unfold stale. destruct (Qlt_le_dec CACHE_TTL (now - time v)) as [H|H].
  - split; [done|]. intros H'. by apply Qle_not_lt in H'.
  - done.
Qed.

(** Sweeping at [s] and then at a later reading leaves what one sweep at
    the later reading leaves. *)
Lemma sweep_sweep (s now : Q) (cache cache1 : gmap string entry) :
  (s <= now)%Q → sweep s cache = Some cache1 →
  sweep now cache1 = sweep now cache.
Proof.
  intros Hle Hs.
  destruct (sweep_spec s cache) as (c1 & Hc1 & Hget1).
  rewrite Hs in Hc1. injection Hc1 as <-.
  destruct (sweep_spec now cache1) as (c2 & -> & Hget2).
  destruct (sweep_spec now cache) as (c3 & -> & Hget3).
  f_equal. apply map_eq. intros k. rewrite Hget2, Hget3, Hget1.
  destruct (cache !! k) as [v|]; [|done].
  destruct (stale s v) eqn:Hsv; [|done].
  by rewrite (stale_mono s now v Hle Hsv).
Qed.

End SweeperFacts.

(** X7: one iteration of the sweeper only removes: what it leaves is part
    of the cache it found, and every session whose age [now - time] is at
    most the TTL is left in place with its url and creation time. *)
Theorem sweep_keeps_fresh (now : Q) (cache : gmap string Store.entry) :
  ∃ cache',
    Store.sweep now cache = Some cache'
    ∧ cache' ⊆ cache
    ∧ ∀ uid v,
        cache !! uid = Some v →
        (now - Store.time v <= Store.CACHE_TTL)%Q →
        cache' !! uid = Some v.
Proof.
  destruct (sweep_spec now cache) as (cache' & Hrun & Hget).
  exists cache'. split; [exact Hrun|]. split.
  - apply map_subseteq_spec. intros k v. rewrite Hget.
    destruct (cache !! k) as [v'|]; [|done].
    by destruct (Store.stale now v').
  - intros uid v Hv Hage. rewrite Hget, Hv.
    apply stale_false in Hage. by rewrite Hage.
Qed.

Lemma sweep_keeps_fresh_witness :
  ∃ cache',
    Store.sweep 900 (URL_CACHE one_session) = Some cache'
    ∧ cache' !! "12345678"
      = Some {| Store.url := "https://vm.tiktok.com/ABC123";
                Store.time := 0 |}.
Proof.
  destruct (sweep_keeps_fresh 900 (URL_CACHE one_session))
    as (cache' & Hrun & _ & Hkept).
  exists cache'. split; [exact Hrun|].
  apply Hkept; [reflexivity|discriminate].
Defined.

(** X8: the loop of [cleanup_cache] never meets a missing key, whatever
    the clock readings of its iterations; and with a clock that does not
    run backwards the cache after any number of iterations is the one a
    single sweep at the last reading would leave. *)
Theorem cleanup_cache_last_reading
    (readings clock : list Q) (now : Q) (cache : gmap string Store.entry) :
  is_Some (Store.cleanup_cache readings cache)
  ∧ (Forall (λ t, (t <= now)%Q) clock →
     Store.cleanup_cache (clock ++ [now]) cache = Store.sweep now cache).
Proof.
  split.
  - revert cache. induction readings as [|t readings IH]; intros cache.
    + by eexists.
    + simpl. destruct (sweep_spec t cache) as (c1 & -> & _). apply IH.
  - intros Hclock. revert cache.
    induction Hclock as [|t clock Ht _ IH]; intros cache.
    + simpl. by destruct (Store.sweep now cache).
    + simpl. destruct (sweep_spec t cache) as (c1 & Hc1 & _).
      rewrite Hc1, IH. by apply (sweep_sweep t).
Qed.

(** Three iterations five minutes apart, and a clock that runs
    backwards. *)
Lemma cleanup_cache_last_reading_witness :
  Store.cleanup_cache ([300; 600]%Q ++ [900%Q]) (URL_CACHE one_session)
  = Store.sweep 900 (URL_CACHE one_session)
  ∧ is_Some (Store.cleanup_cache [2000; 300; 1200]%Q (URL_CACHE one_session)).
Proof.
  destruct (cleanup_cache_last_reading [2000; 300; 1200]%Q [300; 600]%Q 900
              (URL_CACHE one_session)) as [Hsome Hlast].
  split; [|exact Hsome].
  apply Hlast. repeat constructor; discriminate.
Defined.

(** ** Link extractor *)

Section RegexFacts.

Import Re.

Lemma all_in_append cls a b :
  all_in cls (a +:+ b) = all_in cls a && all_in cls b.
Proof.
  induction a as [|c a IH]; simpl; [done|].
  by rewrite IH, andb_assoc.
Qed.

Lemma strip_spec l s s' : strip l s = Some s' → s = l +:+ s'.
Proof.
  revert s. induction l as [|a l IH]; intros [|b s]; simpl; try done.
  - by intros [= ->].
  - by intros [= ->].
  - destruct (Ascii.eqb a b) eqn:Hab; [|done].
    apply Ascii.eqb_eq in Hab as ->. intros H. by rewrite (IH _ H).
Qed.

Lemma star_sound cls s k rest :
  star cls s k = Some rest →
  ∃ m s', s = m +:+ s' ∧ all_in cls m = true ∧ k s' = Some rest.
Proof.
  revert rest. induction s as [|c s IH]; intros rest; simpl.
  - intros H. by exists EmptyString, EmptyString.
  - destruct (cls c) eqn:Hc.
    + destruct (star cls s k) as [r|] eqn:Hs.
      * intros [= ->]. destruct (IH _ eq_refl) as (m & s' & -> & Hm & Hk).
        exists (String c m), s'. simpl. by rewrite Hc, Hm.
      * intros H. by exists EmptyString, (String c s).
    + intros H. by exists EmptyString, (String c s).
Qed.

(** A greedy repetition at the end of a pattern runs to the first
    character outside the class. *)
Lemma star_Some cls s : star cls s Some = Some (skip cls s).
Proof.
  induction s as [|c s IH]; simpl; [done|].
  destruct (cls c); [|done]. by rewrite IH.
Qed.

Lemma skip_skip cls s : skip cls (skip cls s) = skip cls s.
Proof.
  induction s as [|c s IH]; simpl; [done|].
  destruct (cls c) eqn:Hc; [done|]. simpl. by rewrite Hc.
Qed.

Lemma star_rest cls s rest :
  star cls s Some = Some rest → skip cls rest = rest.
Proof. rewrite star_Some. intros [= <-]. apply skip_skip. Qed.

(** What the matcher consumes is a text of the pattern. *)
Lemma rmatch_sound r s k rest :
  rmatch r s k = Some rest →
  ∃ m s', s = m +:+ s' ∧ lang r m ∧ k s' = Some rest.
Proof.
  revert s k rest.
  induction r as [l|a IHa b IHb|a IHa b IHb|a IHa|cls]; intros s k rest; simpl.
  - destruct (strip l s) as [s'|] eqn:Hl; [|done].
    intros Hk. apply strip_spec in Hl. by exists l, s'.
  - intros H. apply IHa in H as (x & s1 & -> & Hx & H).
    apply IHb in H as (y & s2 & -> & Hy & H).
    exists (x +:+ y), s2. rewrite append_assoc. split; [done|].
    split; [|done]. by exists x, y.
  - destruct (rmatch a s k) as [r|] eqn:Ha.
    + intros [= ->]. apply IHa in Ha as (m & s' & -> & Hm & Hk).
      exists m, s'. by repeat split; [left|].
    + intros H. apply IHb in H as (m & s' & -> & Hm & Hk).
      exists m, s'. by repeat split; [right|].
  - destruct (rmatch a s k) as [r|] eqn:Ha.
    + intros [= ->]. apply IHa in Ha as (m & s' & -> & Hm & Hk).
      exists m, s'. by repeat split; [left|].
    + intros H. exists EmptyString, s. by repeat split; [right|].
  - destruct s as [|c s]; [done|]. destruct (cls c) eqn:Hc; [|done].
    intros H. apply star_sound in H as (m & s' & -> & Hm & Hk).
    exists (String c m), s'. simpl. by rewrite Hc, Hm.
Qed.

Lemma rmatch_rest cls r s rest :
  ends_with_plus cls r → rmatch r s Some = Some rest → skip cls rest = rest.
Proof.
  revert s. induction r as [l|a IHa b IHb|a IHa b IHb|a IHa|c];
    intros s; simpl; try done.
  - intros Hb H. apply rmatch_sound in H as (_ & s1 & _ & _ & H).
    by apply (IHb s1).
  - intros -> H. destruct s as [|c s]; [done|].
    destruct (cls c); [|done]. by apply star_rest in H.
Qed.

(** The text of [m.group(0)] when the matcher succeeds at the start. *)
Lemma matched_text r text rest :
  rmatch r text Some = Some rest →
  ∃ m,
    String.substring 0 (String.length text - String.length rest) text = m
    ∧ text = m +:+ rest
    ∧ lang r m.
Proof.
  intros H. apply rmatch_sound in H as (m & s' & -> & Hm & [= ->]).
  exists m. by rewrite length_append, Nat.add_sub, substring_append.
Qed.

(** The match returned by [search] is a piece of the text, a text of the
    pattern, and the matcher stopped where it ends. *)
Lemma search_sound r text m :
  search r text = Some m →
  ∃ pre post,
    text = pre +:+ m +:+ post
    ∧ lang r m
    ∧ rmatch r (m +:+ post) Some = Some post.
Proof.
  induction text as [|c text IH].
  - unfold search. destruct (rmatch r "" Some) as [rest|] eqn:Hr; [|done].
    destruct (matched_text _ _ _ Hr) as (m' & -> & Hs & Hm).
    intros [= ->]. exists EmptyString, rest. by rewrite <- Hs.
  - change (search r (String c text))
      with (match rmatch r (String c text) Some with
            | Some rest =>
                Some (String.substring 0
                        (String.length (String c text) - String.length rest)
                        (String c text))
            | None => search r text
            end).
    destruct (rmatch r (String c text) Some) as [rest|] eqn:Hr.
    + destruct (matched_text _ _ _ Hr) as (m' & -> & Hs & Hm).
      intros [= ->]. exists EmptyString, rest. by rewrite <- Hs.
    + intros H. apply IH in H as (pre & post & -> & Hm & Hr').
      by exists (String c pre), post.
Qed.

End RegexFacts.
Section LinkFacts.

Import Re Link.

Lemma contains_prefix key s : String.prefix key s = true → contains key s = true.
Proof. intros H. destruct s; cbn [contains]; by rewrite H. Qed.

Lemma contains_append_r key a b :
  contains key b = true → contains key (a +:+ b) = true.
Proof.
  intros Hb. induction a as [|c a IH]; [done|].
  change (contains key (String c a +:+ b))
    with (String.prefix key (String c (a +:+ b)) || contains key (a +:+ b)).
  by rewrite IH, orb_true_r.
Qed.

(** A text that holds the key somewhere. *)
Lemma contains_mid key a b : contains key (a +:+ key +:+ b) = true.
Proof. apply contains_append_r, contains_prefix, prefix_append. Qed.

Lemma prefix_app key a b :
  String.prefix key a = true → String.prefix key (a +:+ b) = true.
Proof.
  revert key. induction a as [|c a IH]; intros [|k key].
  - intros _. by destruct b.
  - done.
  - done.
  - change (String.prefix (String k key) (String c a))
      with (if ascii_dec k c then String.prefix key a else false).
    change (String.prefix (String k key) (String c a +:+ b))
      with (if ascii_dec k c then String.prefix key (a +:+ b) else false).
    destruct (ascii_dec k c); [apply IH|done].
Qed.

(** The five names and the fallback of [detect_platform]: the name of the
    first key of [URL_PATTERNS] that occurs in the url. *)
Lemma detect_platform_cases url :
  detect_platform url
  = if contains "tiktok" url then "Tiktok"
    else if contains "youtube" url then "Youtube"
    else if contains "instagram" url then "Instagram"
    else if contains "vk" url then "Vk"
    else if contains "pinterest" url then "Pinterest"
    else "Unknown".
Proof.
  unfold detect_platform. cbn [URL_PATTERNS fmap list_fmap fst
                               detect_platform_loop].
  by repeat (case_match; [done|]).
Qed.

(** Every text of a pattern of [URL_PATTERNS] starts with [http], holds
    no white space, and holds the key of its pattern or, for the youtube
    pattern, the short host. *)
Lemma lang_url_pattern key pattern m :
  (key, pattern) ∈ URL_PATTERNS → lang pattern m →
  String.prefix "http" m = true
  ∧ all_in not_space m = true
  ∧ m ≠ EmptyString
  ∧ (contains key m = true ∨ contains "youtu.be" m = true).
Proof.
  unfold URL_PATTERNS, scheme_www. intros Hin.
  repeat (apply elem_of_cons in Hin as [[= -> ->]|Hin]);
    [..|by apply elem_of_nil in Hin];
    cbn [lang];
    intros (? & ? & -> & -> & ? & ? & -> & Hs & ? & ? & -> & -> &
            ? & ? & -> & Hw & Htail);
    repeat match type of Htail with
           | ∃ _, _ => destruct Htail as (? & Htail)
           | _ ∧ _ => destruct Htail as (? & Htail)
           end;
    subst;
    repeat match goal with
           | H : _ ∨ _ |- _ => destruct H
           | H : _ ∧ _ |- _ => destruct H
           end;
    subst;
    match goal with
    | Hy : all_in not_space ?y = true |- _ =>
        (split; [reflexivity|]);
        (split; [simpl; exact Hy|]);
        (split; [discriminate|]);
        first [left; reflexivity | right; reflexivity]
    end.
Qed.

Lemma extract_url_sound text url :
  extract_url text = Some url →
  ∃ key pattern, (key, pattern) ∈ URL_PATTERNS ∧ search pattern text = Some url.
Proof.
  unfold extract_url.
  assert (Hloop : ∀ patterns : list (string * regex),
    extract_url_loop patterns.*2 text = Some url →
    ∃ key pattern, (key, pattern) ∈ patterns ∧ search pattern text = Some url).
  { induction patterns as [|[key p] patterns IH]; simpl; [done|].
    destruct (search p text) as [m|] eqn:Hs.
    - intros [= ->]. exists key, p. split; [left|done].
    - intros H. destruct (IH H) as (k & q & Hin & Hq).
      exists k, q. split; [by right|done]. }
  apply Hloop.
Qed.

Lemma ends_with_plus_url_pattern key pattern :
  (key, pattern) ∈ URL_PATTERNS → ends_with_plus not_space pattern.
Proof.
  unfold URL_PATTERNS, scheme_www. intros Hin.
  repeat (apply elem_of_cons in Hin as [[= -> ->]|Hin]);
    [..|by apply elem_of_nil in Hin]; reflexivity.
Qed.

End LinkFacts.

Lemma length_skip cls s :
  String.length (Re.skip cls s) ≤ String.length s.
Proof.
  induction s as [|c s IH]; simpl; [done|].
  destruct (cls c); simpl; lia.
Qed.

(** X9: the link returned by [extract_url] is a piece of the text that
    starts with [http], holds no white space and runs up to the next white
    space or to the end of the text. *)
Theorem extract_url_shape (text url : string) :
  Link.extract_url text = Some url →
  ∃ pre post,
    text = pre +:+ url +:+ post
    ∧ String.prefix "http" url = true
    ∧ url ≠ EmptyString
    ∧ Re.all_in Re.not_space url = true
    ∧ (post = EmptyString
       ∨ ∃ c post', post = String c post' ∧ Re.is_space c = true).
Proof.
  intros H. apply extract_url_sound in H as (key & p & Hin & Hs).
  apply search_sound in Hs as (pre & post & -> & Hm & Hrest).
  destruct (lang_url_pattern key p url Hin Hm) as (Hhttp & Hns & Hne & _).
  exists pre, post. repeat (split; [done|]).
  apply (rmatch_rest Re.not_space) in Hrest;
    [|by apply (ends_with_plus_url_pattern key)].
  destruct post as [|c post']; [by left|]. right. exists c, post'.
  split; [done|]. simpl in Hrest. unfold Re.not_space in Hrest.
  destruct (Re.is_space c); [done|]. simpl in Hrest.
  pose proof (length_skip (λ c, negb (Re.is_space c)) post') as Hlen.
  fold Re.not_space in *. rewrite Hrest in Hlen. simpl in Hlen. lia.
Qed.

Lemma extract_url_shape_witness :
  ∃ pre post,
    "check this https://vm.tiktok.com/ABC123 now"
    = pre +:+ "https://vm.tiktok.com/ABC123" +:+ post
    ∧ (post = EmptyString
       ∨ ∃ c post', post = String c post' ∧ Re.is_space c = true).
Proof.
  destruct (extract_url_shape "check this https://vm.tiktok.com/ABC123 now"
              "https://vm.tiktok.com/ABC123")
    as (pre & post & Htext & _ & _ & _ & Hpost).
  - vm_compute. reflexivity.
  - exists pre, post. split; [exact Htext|exact Hpost].
Defined.

(** X10: the platform shown for an extracted link is one of the five
    names, never Unknown, unless the link holds the short host
    [youtu.be]. *)
Theorem extracted_link_platform (text url : string) :
  Link.extract_url text = Some url →
  Link.contains "youtu.be" url = false →
  Link.detect_platform url
  ∈ ["Tiktok"; "Youtube"; "Instagram"; "Vk"; "Pinterest"].
Proof.
  intros H Hshort. apply extract_url_sound in H as (key & p & Hin & Hs).
  apply search_sound in Hs as (pre & post & -> & Hm & _).
  destruct (lang_url_pattern key p url Hin Hm) as (_ & _ & _ & [Hkey|Hy]);
    [|congruence].
  rewrite detect_platform_cases.
  unfold Link.URL_PATTERNS in Hin.
  repeat (apply elem_of_cons in Hin as [[= -> ->]|Hin]);
    [..|by apply elem_of_nil in Hin];
    repeat case_match; try congruence;
    repeat first [apply list_elem_of_here | apply list_elem_of_further].
Qed.

Lemma extracted_link_platform_witness :
  Link.detect_platform "https://vk.com/video-1_2"
  ∈ ["Tiktok"; "Youtube"; "Instagram"; "Vk"; "Pinterest"].
Proof.
  apply (extracted_link_platform "see https://vk.com/video-1_2 !").
  - vm_compute. reflexivity.
  - vm_compute. reflexivity.
Defined.

(** X11: [detect_platform] goes by the first key of [URL_PATTERNS] that
    occurs anywhere in the url, not by the pattern that matched: a url that
    holds [tiktok] is named Tiktok whatever its host, and the answer is
    Unknown exactly when none of the five keys occurs. *)
Theorem detect_platform_first_key (url : string) :
  (Link.contains "tiktok" url = true → Link.detect_platform url = "Tiktok")
  ∧ (Link.detect_platform url = "Unknown"
     ↔ ∀ key, key ∈ Link.URL_PATTERNS.*1 → Link.contains key url = false).
Proof.
  rewrite detect_platform_cases. split.
  - by intros ->.
  - split.
    + intros H key Hkey. cbn in Hkey.
      repeat (apply elem_of_cons in Hkey as [->|Hkey]);
        [..|by apply elem_of_nil in Hkey];
        repeat case_match; done.
    + intros H.
      rewrite (H "tiktok"), (H "youtube"), (H "instagram"), (H "vk"),
        (H "pinterest"); [done|cbn..];
        repeat first [apply list_elem_of_here | apply list_elem_of_further].
Qed.

Lemma detect_platform_first_key_witness :
  Link.detect_platform "https://www.youtube.com/watch?v=tiktok" = "Tiktok".
Proof.
  apply (detect_platform_first_key "https://www.youtube.com/watch?v=tiktok").
  vm_compute. reflexivity.
Defined.

(** A text from which a link is extracted holds [http], and the link is
    not empty. *)
Lemma extract_url_http text url :
  Link.extract_url text = Some url →
  Link.contains "http" text = true ∧ url ≠ EmptyString.
Proof.
  intros H. apply extract_url_sound in H as (key & p & Hin & Hs).
  apply search_sound in Hs as (pre & post & -> & Hm & _).
  destruct (lang_url_pattern key p url Hin Hm) as (Hhttp & _ & Hne & _).
  split; [|done]. by apply contains_append_r, contains_prefix, prefix_app.
Qed.

(** X12: a message without text, or whose text does not hold [http],
    gets the no-link notice and nothing else: no session is created. *)
Theorem handle_link_without_link
    (E : env) (r : Z) (now : Q) (msg_text : option string) (w : world) :
  Link.contains "http" (default "" msg_text) = false →
  handle_link E r now msg_text w
  = (verdict E w (Answer NO_LINK None), log (Answer NO_LINK None) w).
Proof.
  intros Hno. unfold handle_link.
  destruct (Link.extract_url (default "" msg_text)) as [url|] eqn:Hx;
    [|apply send_run].
  apply extract_url_http in Hx as [Hhttp _]. congruence.
Qed.

Lemma handle_link_without_link_witness :
  handle_link all_fine 0 1000 None one_session
  = (Ok tt,
     {| URL_CACHE := URL_CACHE one_session; files := ∅;
        trace := [Answer NO_LINK None] |}).
Proof.
  apply (handle_link_without_link all_fine 0 1000 None one_session).
  reflexivity.
Defined.

(** X13: when the text holds a link, [handle_link] stores the session
    under the new id before it answers, so the session is in the cache
    whether or not the answer goes through; the answer carries the three
    type buttons for that id, and nothing else is done. *)
Theorem handle_link_stores_session
    (E : env) (r : Z) (now : Q) (msg_text : option string) (w : world)
    (url : string) :
  Link.extract_url (default "" msg_text) = Some url →
  let uid := Uuid.session_id r in
  let w1 := {| URL_CACHE :=
                 <[uid := {| Store.url := url; Store.time := now |}]>
                   (URL_CACHE w);
               files := files w;
               trace := trace w |} in
  ∃ kb text,
    handle_link E r now msg_text w
    = (verdict E w1 (Answer text (Some kb)), log (Answer text (Some kb)) w1)
    ∧ callback_data <$> choices kb
      = ["type|video|" +:+ uid; "type|audio|" +:+ uid;
         "type|thumbnail|" +:+ uid].
Proof.
  intros Hx. pose proof Hx as Hshape.
  apply extract_url_http in Hshape as [_ Hne].
  apply String.eqb_neq in Hne.
  unfold handle_link. rewrite Hx, Hne.
  unfold build_type_keyboard, cache_set, mbind, M_bind, mret, M_ret.
  cbv beta iota. rewrite send_run. by eexists _, _.
Qed.

Lemma handle_link_stores_session_witness :
  URL_CACHE
    (handle_link upload_refused 0 1000
       (Some "check this https://vm.tiktok.com/ABC123") empty_world).2
  !! "00000000"
  = Some {| Store.url := "https://vm.tiktok.com/ABC123";
            Store.time := 1000 |}.
Proof.
  destruct (handle_link_stores_session upload_refused 0 1000
              (Some "check this https://vm.tiktok.com/ABC123") empty_world
              "https://vm.tiktok.com/ABC123")
    as (kb & text & Hrun & _).
  - vm_compute. reflexivity.
  - rewrite Hrun. reflexivity.
Defined.

(** ** Downloads *)

Lemma rcut_none sep s : Py.count sep s = 0 → rcut sep s = None.
Proof.
  induction s as [|c s IH]; simpl; [done|].
  destruct (Ascii.eqb c sep); simpl; [done|].
  intros H. by rewrite IH.
Qed.

Lemma rcut_last sep a b :
  Py.count sep b = 0 → rcut sep (a +:+ String sep b) = Some a.
Proof.
  intros Hb. induction a as [|c a IH]; simpl.
  - by rewrite (rcut_none _ _ Hb), Ascii.eqb_refl.
  - by rewrite IH.
Qed.

(** X14: for a thumbnail the path handed back by [download_media] is the
    file name prepared by the provider with everything after its last dot
    replaced by [jpg], wherever that dot stands, in the name of the file
    or in a directory before it. *)
Theorem thumbnail_path
    (E : env) (url : string) (fmt_id : option string) (w : world)
    (stem ext : string) (fs : gset string) :
  Py.count "." ext = 0 →
  ydl_fetch E
    {| opt_format :=
         match fmt_id with
         | Some f => if String.eqb f "" then "best" else f
         | None => "best"
         end;
       opt_extract_audio := false;
       opt_skip_download := true;
       opt_writethumbnail := true |}
    url (files w)
  = (Some (stem +:+ String "." ext), fs) →
  download_media E url fmt_id "thumbnail" w
  = (Ok (Some (stem +:+ ".jpg")),
     {| URL_CACHE := URL_CACHE w; files := fs; trace := trace w |}).
Proof.
  intros Hext Hfetch. unfold download_media.
  cbv [String.eqb Ascii.eqb Bool.eqb opt_format opt_extract_audio
       opt_skip_download opt_writethumbnail] in Hfetch |- *.
  rewrite Hfetch. unfold rsplit_dot_head.
  by rewrite (rcut_last _ _ _ Hext).
Qed.

Lemma thumbnail_path_witness :
  download_media
    {| messenger := λ _ _, None;
       ydl_probe := λ _, None;
       ydl_fetch := λ _ _ fs, (Some "down.loads/clip", fs);
       remove_fails := λ _, false |}
    "https://vm.tiktok.com/ABC123" (Some "22") "thumbnail" empty_world
  = (Ok (Some "down.jpg"), empty_world).
Proof.
  apply (thumbnail_path _ "https://vm.tiktok.com/ABC123" (Some "22")
           empty_world "down" "loads/clip" ∅).
  - reflexivity.
  - reflexivity.
Defined.

(** X15: the quality chosen for audio is ignored.  Two presses that carry
    the media type audio and the same session id run [cb_download] in the
    same way whatever format ids they carry. *)
Theorem audio_quality_ignored
    (E : env) (w : world) (data1 data2 tag1 tag2 fmt1 fmt2 uid : string) :
  Py.split "|" 3 data1 = [tag1; "audio"; fmt1; uid] →
  Py.split "|" 3 data2 = [tag2; "audio"; fmt2; uid] →
  cb_download E data1 w = cb_download E data2 w.
Proof.
  intros H1 H2. unfold cb_download. rewrite H1, H2.
  unfold mbind, M_bind, cache_get.
  destruct (URL_CACHE w !! uid) as [e|]; reflexivity.
Qed.

Lemma audio_quality_ignored_witness :
  cb_download all_fine "dl|audio|18|12345678" one_session
  = cb_download all_fine "dl|audio|22|12345678" one_session.
Proof.
  apply (audio_quality_ignored all_fine one_session
           "dl|audio|18|12345678" "dl|audio|22|12345678"
           "dl" "dl" "18" "22" "12345678").
  - reflexivity.
  - reflexivity.
Defined.

(** ** Completeness of the link extractor *)

Section MatcherComplete.

Import Re Link.

Lemma strip_append l s : strip l (l +:+ s) = Some s.
Proof.
  induction l as [|c l IH]; simpl; [by destruct s|].
  by rewrite Ascii.eqb_refl.
Qed.

Lemma star_complete cls m s k :
  all_in cls m = true → is_Some (k s) → is_Some (star cls (m +:+ s) k).
Proof.
  intros Hm Hk. induction m as [|c m IH]; simpl in *.
  - destruct s as [|c s]; [done|]. simpl. destruct (cls c); [|done].
    by destruct (star cls s k).
  - apply andb_true_iff in Hm as [-> Hm].
    destruct (IH Hm) as [rest ->]. by eexists.
Qed.

(** The backtracking matcher finds a match whenever the text starts with
    a text of the pattern after which the continuation succeeds. *)
Lemma rmatch_complete r m s k :
  lang r m → is_Some (k s) → is_Some (rmatch r (m +:+ s) k).
Proof.
  revert m s k.
  induction r as [l|a IHa b IHb|a IHa b IHb|a IHa|cls]; intros m s k; simpl.
  - intros -> Hk. by rewrite strip_append.
  - intros (x & y & -> & Hx & Hy) Hk. rewrite append_assoc.
    apply IHa; [done|]. by apply IHb.
  - intros [Ha|Hb] Hk.
    + destruct (IHa _ s k Ha Hk) as [rest ->]. by eexists.
    + destruct (rmatch a (m +:+ s) k); [by eexists|]. by apply IHb.
  - intros [Ha| ->] Hk.
    + destruct (IHa _ s k Ha Hk) as [rest ->]. by eexists.
    + simpl. by destruct (rmatch a s k).
  - intros [Hne Hm] Hk. destruct m as [|c m]; [done|]. simpl in *.
    apply andb_true_iff in Hm as [-> Hm]. by apply star_complete.
Qed.

Lemma search_complete r pre m post :
  is_Some (rmatch r (m +:+ post) Some) →
  is_Some (search r (pre +:+ m +:+ post)).
Proof.
  intros Hm. induction pre as [|c pre IH].
  - simpl String.append. destruct Hm as [rest Hm].
    destruct (m +:+ post) as [|c t];
      unfold search; fold search; rewrite Hm; by eexists.
  - change (search r (String c pre +:+ m +:+ post))
      with (match rmatch r (String c (pre +:+ m +:+ post)) Some with
            | Some rest =>
                Some (String.substring 0
                        (String.length (String c (pre +:+ m +:+ post))
                         - String.length rest)
                        (String c (pre +:+ m +:+ post)))
            | None => search r (pre +:+ m +:+ post)
            end).
    by destruct (rmatch r (String c (pre +:+ m +:+ post)) Some).
Qed.

Lemma extract_url_loop_complete (patterns : list (string * regex)) key p text :
  (key, p) ∈ patterns → is_Some (search p text) →
  is_Some (extract_url_loop patterns.*2 text).
Proof.
  intros Hin Hs. induction patterns as [|[k q] patterns IH]; simpl.
  - by apply elem_of_nil in Hin.
  - destruct (search q text) as [m|] eqn:Hq; [by eexists|].
    apply elem_of_cons in Hin as [[= <- <-]|Hin]; [|by apply IH].
    rewrite Hq in Hs. by destruct Hs.
Qed.

Lemma all_in_skip cls s : all_in cls s = true → skip cls s = EmptyString.
Proof.
  induction s as [|c s IH]; simpl; [done|].
  intros [-> Hs]%andb_true_iff. by apply IH.
Qed.

Lemma append_nil_r (s : string) : s +:+ "" = s.
Proof. induction s as [|c s IH]; simpl; [done|]. by rewrite IH. Qed.

End MatcherComplete.

(** X16: the extractor misses no supported link.  Whenever the text holds
    a text of one of the five patterns, [extract_url] returns a link; and
    when the whole text is a link of the first pattern (tiktok), it
    returns that text. *)
Theorem extract_url_complete
    (key : string) (pattern : Re.regex) (pre m post : string) :
  (key, pattern) ∈ Link.URL_PATTERNS →
  Re.lang pattern m →
  is_Some (Link.extract_url (pre +:+ m +:+ post))
  ∧ (Link.URL_PATTERNS !! 0 = Some (key, pattern) →
     Link.extract_url m = Some m).
Proof.
  intros Hin Hm.
  assert (Hhere : ∀ s, is_Some (Re.rmatch pattern (m +:+ s) Some)).
  { intros s. by apply rmatch_complete. }
  split.
  - apply (extract_url_loop_complete _ key pattern); [done|].
    by apply search_complete.
  - intros [= <- <-].
    destruct (Hhere EmptyString) as [rest Hrest].
    rewrite append_nil_r in Hrest.
    destruct (matched_text _ _ _ Hrest) as (m' & Hsub & Hs & _).
    destruct (lang_url_pattern _ _ _ Hin Hm) as (_ & Hns & _ & _).
    assert (rest = EmptyString) as ->.
    { pose proof Hrest as Hskip.
      apply (rmatch_rest Re.not_space) in Hskip; [|reflexivity].
      rewrite <- Hskip. apply all_in_skip.
      rewrite Hs, all_in_append in Hns.
      by apply andb_true_iff in Hns as [_ ?]. }
    rewrite append_nil_r in Hs. subst m'.
    unfold Link.extract_url. cbn [Link.URL_PATTERNS fmap list_fmap snd].
    cbn [Link.extract_url_loop].
    assert (Hsearch : Re.search
              (Link.scheme_www
                 (Re.Seq (Re.Alt (Re.Lit "tiktok.com") (Re.Lit "vm.tiktok.com"))
                    (Re.Seq (Re.Lit "/") (Re.Plus Re.not_space)))) m
            = Some m).
    { destruct m as [|c t]; unfold Re.search; fold Re.search;
        rewrite Hrest; by rewrite Hsub. }
    by rewrite Hsearch.
Qed.

Lemma extract_url_complete_witness :
  is_Some (Link.extract_url
             ("watch " +:+ "http://www.instagram.com/reel/Cx1" +:+ " now")).
Proof.
  apply (extract_url_complete "instagram"
           (Link.scheme_www
              (Re.Seq (Re.Lit "instagram.com")
                 (Re.Seq (Re.Lit "/") (Re.Plus Re.not_space))))
           "watch " "http://www.instagram.com/reel/Cx1" " now").
  - unfold Link.URL_PATTERNS.
    apply list_elem_of_further, list_elem_of_further, list_elem_of_here.
  - unfold Link.scheme_www. cbn [Re.lang].
    exists "http", "://www.instagram.com/reel/Cx1".
    split; [reflexivity|]. split; [reflexivity|].
    exists "", "://www.instagram.com/reel/Cx1".
    split; [reflexivity|]. split; [right; reflexivity|].
    exists "://", "www.instagram.com/reel/Cx1".
    split; [reflexivity|]. split; [reflexivity|].
    exists "www.", "instagram.com/reel/Cx1".
    split; [reflexivity|]. split; [left; reflexivity|].
    exists "instagram.com", "/reel/Cx1".
    split; [reflexivity|]. split; [reflexivity|].
    exists "/", "reel/Cx1".
    split; [reflexivity|]. split; [reflexivity|].
    split; [discriminate|reflexivity].
Defined.

(** ** The delivery step of [cb_download] *)

Section DeliveryFacts.

Variable E : env.

Lemma deliver_upload_call media_type path :
  deliver E media_type path
  = (send E (upload_call media_type path);; send E DeleteMessage).
Proof.
  unfold deliver, upload_call.
  by destruct (String.eqb media_type "audio"),
              (String.eqb media_type "thumbnail").
Qed.

(** With the session found, the download announced and the file on disk,
    [cb_download] is its [try] statement run after the download. *)
Lemma cb_download_delivery w w1 data tag media_type fmt_id uid path e :
  Py.split "|" 3 data = [tag; media_type; fmt_id; uid] →
  URL_CACHE w !! uid = Some e →
  messenger E (trace w) (EditText DOWNLOADING None) = None →
  download_media E (Store.url e) (Some fmt_id) media_type
    (log (EditText DOWNLOADING None) w) = (Ok (Some path), w1) →
  path ≠ "" →
  path ∈ files w1 →
  cb_download E data w
  = try_finally
      (try_except
         (send E (upload_call media_type path);; send E DeleteMessage)
         (λ _, send E (EditText SEND_FAILED None)))
      (try_except (os_remove E path) (λ _, mret tt)) w1.
Proof.
  intros Hd He Hm Hdl Hne Hin.
  rewrite (cb_download_found E _ _ _ _ _ _ _ Hd He).
  unfold download_found, mbind, M_bind at 1.
  unfold send at 1. rewrite Hm.
  unfold M_bind at 1. rewrite Hdl.
  unfold M_bind at 1, path_exists.
  rewrite (bool_decide_eq_true_2 _ Hin).
  apply String.eqb_neq in Hne. rewrite Hne.
  by rewrite deliver_upload_call.
Qed.

End DeliveryFacts.

(** X17: the run of [cb_download] in which everything goes through.  The
    file is uploaded with the call of its media type, the prompt is
    deleted, the file is removed from disk, and the handler returns
    normally having made exactly these calls after the download. *)
Theorem delivery_happy_path
    (E : env) (w w1 : world)
    (data tag media_type fmt_id uid path : string) (e : Store.entry) :
  Py.split "|" 3 data = [tag; media_type; fmt_id; uid] →
  URL_CACHE w !! uid = Some e →
  messenger E (trace w) (EditText DOWNLOADING None) = None →
  download_media E (Store.url e) (Some fmt_id) media_type
    (log (EditText DOWNLOADING None) w) = (Ok (Some path), w1) →
  path ≠ "" →
  path ∈ files w1 →
  messenger E (trace w1) (upload_call media_type path) = None →
  messenger E (trace w1 ++ [upload_call media_type path]) DeleteMessage
  = None →
  remove_fails E path = false →
  cb_download E data w
  = (Ok tt,
     {| URL_CACHE := URL_CACHE w1;
        files := files w1 ∖ {[path]};
        trace := trace w1 ++ [upload_call media_type path; DeleteMessage;
                              Remove path] |}).
Proof.
  intros Hd He Hm Hdl Hne Hin Hup Hdel Hrm.
  rewrite (cb_download_delivery E w w1 _ _ _ _ _ _ _ Hd He Hm Hdl Hne Hin).
  unfold try_finally, try_except, mbind, M_bind, send, os_remove, log.
  cbn [trace files URL_CACHE]. rewrite Hup. cbn [trace files URL_CACHE].
  rewrite Hdel. cbn [trace files URL_CACHE].
  rewrite (bool_decide_eq_true_2 _ Hin), Hrm. simpl.
  by rewrite <- !app_assoc.
Qed.

Lemma delivery_happy_path_witness :
  cb_download all_fine "dl|video|22|12345678" one_session
  = (Ok tt,
     {| URL_CACHE := URL_CACHE one_session;
        files := (∅ ∪ {["downloads/clip.mp4"]}) ∖ {["downloads/clip.mp4"]};
        trace := [EditText DOWNLOADING None]
                 ++ [upload_call "video" "downloads/clip.mp4";
                     DeleteMessage; Remove "downloads/clip.mp4"] |}).
Proof.
  pose proof (delivery_happy_path all_fine one_session
           {| URL_CACHE := URL_CACHE one_session;
              files := ∅ ∪ {["downloads/clip.mp4"]};
              trace := [EditText DOWNLOADING None] |}
           "dl|video|22|12345678" "dl" "video" "22" "12345678"
           "downloads/clip.mp4"
           {| Store.url := "https://vm.tiktok.com/ABC123";
              Store.time := 0 |}) as H.
  cbn [URL_CACHE files trace] in H. apply H.
  - reflexivity.
  - reflexivity.
  - reflexivity.
  - reflexivity.
  - discriminate.
  - simpl. apply elem_of_union_r. by apply elem_of_singleton.
  - reflexivity.
  - reflexivity.
  - reflexivity.
Defined.

(** X18: deleting the prompt belongs to the guarded delivery.  When the
    upload goes through but the deletion of the prompt raises an
    exception, the user has the file and the prompt is edited to the
    send-failed notice; the file is still removed, and the outcome of the
    handler is that of this last edit. *)
Theorem prompt_deletion_failure
    (E : env) (w w1 : world)
    (data tag media_type fmt_id uid path : string) (e : Store.entry)
    (fault : exn) :
  Py.split "|" 3 data = [tag; media_type; fmt_id; uid] →
  URL_CACHE w !! uid = Some e →
  messenger E (trace w) (EditText DOWNLOADING None) = None →
  download_media E (Store.url e) (Some fmt_id) media_type
    (log (EditText DOWNLOADING None) w) = (Ok (Some path), w1) →
  path ≠ "" →
  path ∈ files w1 →
  messenger E (trace w1) (upload_call media_type path) = None →
  messenger E (trace w1 ++ [upload_call media_type path]) DeleteMessage
  = Some fault →
  is_Exception fault = true →
  remove_fails E path = false →
  let calls := [upload_call media_type path; DeleteMessage] in
  cb_download E data w
  = (match messenger E (trace w1 ++ calls) (EditText SEND_FAILED None) with
     | None => Ok tt
     | Some e => Raise e
     end,
     {| URL_CACHE := URL_CACHE w1;
        files := files w1 ∖ {[path]};
        trace := trace w1 ++ calls ++ [EditText SEND_FAILED None;
                                         Remove path] |}).
Proof.
  intros Hd He Hm Hdl Hne Hin Hup Hdel Hexn Hrm calls.
  rewrite (cb_download_delivery E w w1 _ _ _ _ _ _ _ Hd He Hm Hdl Hne Hin).
  unfold try_finally, try_except, mbind, M_bind, send, os_remove, log.
  cbn [trace files URL_CACHE]. rewrite Hup. cbn [trace files URL_CACHE].
  rewrite Hdel, Hexn. cbn [trace files URL_CACHE].
  unfold calls. rewrite <- !app_assoc. simpl app.
  destruct (messenger E _ (EditText SEND_FAILED None));
    cbn [trace files URL_CACHE];
    rewrite (bool_decide_eq_true_2 _ Hin), Hrm; simpl;
    by rewrite <- !app_assoc.
Qed.

Lemma prompt_deletion_failure_witness :
  cb_download prompt_stuck "dl|video|22|12345678" one_session
  = (Ok tt,
     {| URL_CACHE := URL_CACHE one_session;
        files := (∅ ∪ {["downloads/clip.mp4"]}) ∖ {["downloads/clip.mp4"]};
        trace := [EditText DOWNLOADING None]
                 ++ [upload_call "video" "downloads/clip.mp4"; DeleteMessage]
                 ++ [EditText SEND_FAILED None;
                     Remove "downloads/clip.mp4"] |}).
Proof.
  pose proof (prompt_deletion_failure prompt_stuck one_session
           {| URL_CACHE := URL_CACHE one_session;
              files := ∅ ∪ {["downloads/clip.mp4"]};
              trace := [EditText DOWNLOADING None] |}
           "dl|video|22|12345678" "dl" "video" "22" "12345678"
           "downloads/clip.mp4"
           {| Store.url := "https://vm.tiktok.com/ABC123";
              Store.time := 0 |} TelegramError) as H.
  cbn [URL_CACHE files trace] in H. apply H.
  - reflexivity.
  - reflexivity.
  - reflexivity.
  - reflexivity.
  - discriminate.
  - simpl. apply elem_of_union_r. by apply elem_of_singleton.
  - reflexivity.
  - reflexivity.
  - reflexivity.
  - reflexivity.
Defined.

(** X19: a fault that [except Exception] does not catch, such as a
    cancellation during the upload, leaves [cb_download] with no notice
    to the user, but only after the downloaded file was removed. *)
Theorem cancelled_upload_still_cleans_up
    (E : env) (w w1 : world)
    (data tag media_type fmt_id uid path : string) (e : Store.entry)
    (fault : exn) :
  Py.split "|" 3 data = [tag; media_type; fmt_id; uid] →
  URL_CACHE w !! uid = Some e →
  messenger E (trace w) (EditText DOWNLOADING None) = None →
  download_media E (Store.url e) (Some fmt_id) media_type
    (log (EditText DOWNLOADING None) w) = (Ok (Some path), w1) →
  path ≠ "" →
  path ∈ files w1 →
  messenger E (trace w1) (upload_call media_type path) = Some fault →
  is_Exception fault = false →
  remove_fails E path = false →
  cb_download E data w
  = (Raise fault,
     {| URL_CACHE := URL_CACHE w1;
        files := files w1 ∖ {[path]};
        trace := trace w1 ++ [upload_call media_type path; Remove path] |}).
Proof.
  intros Hd He Hm Hdl Hne Hin Hup Hexn Hrm.
  rewrite (cb_download_delivery E w w1 _ _ _ _ _ _ _ Hd He Hm Hdl Hne Hin).
  unfold try_finally, try_except, mbind, M_bind, send, os_remove, log.
  cbn [trace files URL_CACHE]. rewrite Hup, Hexn. cbn [trace files URL_CACHE].
  rewrite (bool_decide_eq_true_2 _ Hin), Hrm. simpl.
  by rewrite <- !app_assoc.
Qed.

Lemma cancelled_upload_still_cleans_up_witness :
  cb_download upload_cancelled "dl|video|22|12345678" one_session
  = (Raise CancelledError,
     {| URL_CACHE := URL_CACHE one_session;
        files := (∅ ∪ {["downloads/clip.mp4"]}) ∖ {["downloads/clip.mp4"]};
        trace := [EditText DOWNLOADING None]
                 ++ [upload_call "video" "downloads/clip.mp4";
                     Remove "downloads/clip.mp4"] |}).
Proof.
  pose proof (cancelled_upload_still_cleans_up upload_cancelled one_session
           {| URL_CACHE := URL_CACHE one_session;
              files := ∅ ∪ {["downloads/clip.mp4"]};
              trace := [EditText DOWNLOADING None] |}
           "dl|video|22|12345678" "dl" "video" "22" "12345678"
           "downloads/clip.mp4"
           {| Store.url := "https://vm.tiktok.com/ABC123";
              Store.time := 0 |} CancelledError) as H.
  cbn [URL_CACHE files trace] in H. apply H.
  - reflexivity.
  - reflexivity.
  - reflexivity.
  - reflexivity.
  - discriminate.
  - simpl. apply elem_of_union_r. by apply elem_of_singleton.
  - reflexivity.
  - reflexivity.
  - reflexivity.
Defined.

(** ** Sessions over time and side by side *)

(** X20: the life of a session.  After [build_type_keyboard] at reading
    [now], a sweep at reading [s] always completes; while [s - now] is at
    most the TTL the video button still leads [cb_select_type] to the
    stored url, and once [s - now] exceeds the TTL the same button only
    gets the expired-session notice. *)
Theorem session_lifecycle
    (E : env) (r : Z) (now s : Q) (url : string) (w : world) :
  let uid := Uuid.session_id r in
  let w1 := (build_type_keyboard r now url w).2 in
  ∃ cache',
    Store.sweep s (URL_CACHE w1) = Some cache'
    ∧ let w2 := {| URL_CACHE := cache'; files := files w1;
                   trace := trace w1 |} in
      ((s - now <= Store.CACHE_TTL)%Q →
       cb_select_type E ("type|video|" +:+ uid) w2
       = select_type_found E url "video" uid w2)
      ∧ ((Store.CACHE_TTL < s - now)%Q →
         cb_select_type E ("type|video|" +:+ uid) w2
         = (verdict E w2 (EditText SESSION_EXPIRED None),
            log (EditText SESSION_EXPIRED None) w2)).
Proof.
  intros uid w1.
  destruct (sweep_spec s (URL_CACHE w1)) as (cache' & Hrun & Hget).
  exists cache'. split; [exact Hrun|]. intros w2.
  assert (Hput : URL_CACHE w1 !! uid
                 = Some {| Store.url := url; Store.time := now |})
    by apply lookup_insert_eq.
  specialize (Hget uid). rewrite Hput in Hget. split.
  - intros Hage.
    apply (stale_false s {| Store.url := url; Store.time := now |}) in Hage.
    rewrite Hage in Hget.
    by apply (cb_select_type_found E _ "type" "video" uid
                {| Store.url := url; Store.time := now |}).
  - intros Hage.
    apply (stale_true s {| Store.url := url; Store.time := now |}) in Hage.
    rewrite Hage in Hget.
    unfold cb_select_type.
    change (Py.split "|" 2 ("type|video|" +:+ uid))
      with ["type"; "video"; uid].
    unfold mbind, M_bind, cache_get. cbn [URL_CACHE w2]. rewrite Hget.
    apply send_run.
Qed.

Lemma session_lifecycle_witness :
  ∃ cache',
    Store.sweep 1901 (URL_CACHE (build_type_keyboard 0 1000
                                   "https://vm.tiktok.com/ABC123"
                                   empty_world).2) = Some cache'
    ∧ cb_select_type all_fine ("type|video|" +:+ Uuid.session_id 0)
        {| URL_CACHE := cache'; files := ∅; trace := [] |}
      = (Ok tt,
         {| URL_CACHE := cache'; files := ∅;
            trace := [EditText SESSION_EXPIRED None] |}).
Proof.
  destruct (session_lifecycle all_fine 0 1000 1901
              "https://vm.tiktok.com/ABC123" empty_world)
    as (cache' & Hrun & _ & Hgone).
  exists cache'. split; [exact Hrun|]. apply Hgone. reflexivity.
Defined.

(** X21: two sessions side by side.  After two calls of
    [build_type_keyboard], the video button of the first keyboard leads
    to the first url when the two session ids differ, and to the second
    url when they coincide: a colliding id hands the buttons of the first
    message over to the second link. *)
Theorem second_session_and_first_buttons
    (E : env) (r1 r2 : Z) (now1 now2 : Q) (url1 url2 : string) (w : world) :
  let uid1 := Uuid.session_id r1 in
  let w1 := (build_type_keyboard r1 now1 url1 w).2 in
  let w2 := (build_type_keyboard r2 now2 url2 w1).2 in
  cb_select_type E ("type|video|" +:+ uid1) w2
  = select_type_found E
      (if decide (uid1 = Uuid.session_id r2) then url2 else url1)
      "video" uid1 w2.
Proof.
  intros uid1 w1 w2.
  destruct (decide (uid1 = Uuid.session_id r2)) as [Heq|Hne].
  - apply (cb_select_type_found E _ "type" "video" uid1
             {| Store.url := url2; Store.time := now2 |}); [done|].
    unfold w2, build_type_keyboard, cache_set, mbind, M_bind, mret, M_ret.
    cbn [snd URL_CACHE]. rewrite Heq. apply lookup_insert_eq.
  - apply (cb_select_type_found E _ "type" "video" uid1
             {| Store.url := url1; Store.time := now1 |}); [done|].
    unfold w2, w1, build_type_keyboard, cache_set, mbind, M_bind, mret, M_ret.
    cbn [snd URL_CACHE]. rewrite lookup_insert_ne by done.
    apply lookup_insert_eq.
Qed.
